(** * Donor analytics platform: a shallow embedding of the ingestion
    pipeline and of the analytics engine, with the properties of its
    specification.

  Sources embedded here:
  - [src/utils/dateUtils.ts]: the date helpers, class [DonorAnalytics]
    and class [DataParser];
  - [src/components/CorrelationAnalysis.tsx]:
    [calculatePearsonCorrelation].

  Modelling conventions.
  - A JavaScript [number] is a value of [num]: an exact rational, or one
    of the three IEEE special values.  Rounding of finite doubles and the
    sign of zero are not modelled; every division by zero produces the
    special value the engine produces.
  - Counters that only ever hold array lengths or set sizes are [nat].
  - A [Date] is given by its local calendar fields.
  - A [Map] is an association list in insertion order, a [Set] of
    identifiers is a [gset string].
  - The Pearson coefficient needs a square root: it is computed over the
    real numbers, [None] standing for [NaN]. *)

From Stdlib Require Import ZArith QArith Qabs List Bool Lia Ascii String.
From Stdlib Require Import Reals Lra Psatz Sorted.
From stdpp Require Import base list strings gmap pretty.
Import ListNotations.

Local Open Scope Z_scope.

(** ** JavaScript numbers *)

Module JSNum.

Inductive num : Type :=
| Fin (q : Q)
| PosInf
| NegInf
| NaN.

Definition of_Z (z : Z) : num := Fin (inject_Z z).
Definition of_nat (n : nat) : num := of_Z (Z.of_nat n).

Definition zero : num := of_Z 0.
Definition one : num := of_Z 1.

Definition Qis_zero (q : Q) : bool := Qeq_bool q 0.
Definition Qis_pos (q : Q) : bool := (0 <? Qnum q)%Z.
Definition Qis_neg (q : Q) : bool := (Qnum q <? 0)%Z.

Definition nopp (a : num) : num :=
  match a with
  | Fin q => Fin (- q)
  | PosInf => NegInf
  | NegInf => PosInf
  | NaN => NaN
  end.

Definition nadd (a b : num) : num :=
  match a, b with
  | NaN, _ | _, NaN => NaN
  | Fin p, Fin q => Fin (p + q)
  | PosInf, NegInf | NegInf, PosInf => NaN
  | PosInf, _ | _, PosInf => PosInf
  | NegInf, _ | _, NegInf => NegInf
  end.

Definition nsub (a b : num) : num := nadd a (nopp b).

(** [Math.abs]. *)
Definition nabs (a : num) : num :=
  match a with
  | Fin q => Fin (Qabs q)
  | PosInf | NegInf => PosInf
  | NaN => NaN
  end.

(** The sign of an infinite product or quotient. *)
Definition signed_inf (negative : bool) : num :=
  if negative then NegInf else PosInf.

Definition inf_times (negative : bool) (q : Q) : num :=
  if Qis_zero q then NaN else signed_inf (xorb negative (Qis_neg q)).

Definition nmul (a b : num) : num :=
  match a, b with
  | NaN, _ | _, NaN => NaN
  | Fin p, Fin q => Fin (p * q)
  | PosInf, Fin q | Fin q, PosInf => inf_times false q
  | NegInf, Fin q | Fin q, NegInf => inf_times true q
  | PosInf, PosInf | NegInf, NegInf => PosInf
  | PosInf, NegInf | NegInf, PosInf => NegInf
  end.

(** [a / b]: a finite quotient when the divisor is not zero; [0 / 0] is
    [NaN] and [x / 0] is an infinity with the sign of [x]. *)
Definition ndiv (a b : num) : num :=
  match a, b with
  | NaN, _ | _, NaN => NaN
  | Fin p, Fin q =>
      if Qis_zero q then
        if Qis_zero p then NaN else signed_inf (Qis_neg p)
      else Fin (p / q)
  | Fin _, (PosInf | NegInf) => Fin 0
  | PosInf, Fin q => signed_inf (Qis_neg q)
  | NegInf, Fin q => signed_inf (negb (Qis_neg q))
  | (PosInf | NegInf), (PosInf | NegInf) => NaN
  end.

(** [a < b], [a > b], [a === b], [a <= b]: all false on [NaN]. *)
Definition nltb (a b : num) : bool :=
  match a, b with
  | NaN, _ | _, NaN => false
  | Fin p, Fin q => (Qnum p * QDen q <? Qnum q * QDen p)%Z
  | NegInf, (Fin _ | PosInf) => true
  | Fin _, PosInf => true
  | _, _ => false
  end.

Definition ngtb (a b : num) : bool := nltb b a.

Definition neqb (a b : num) : bool :=
  match a, b with
  | Fin p, Fin q => Qeq_bool p q
  | PosInf, PosInf | NegInf, NegInf => true
  | _, _ => false
  end.

Definition nleb (a b : num) : bool := nltb a b || neqb a b.

(** [Math.max] and [Math.min] of two arguments: [NaN] as soon as one
    argument is [NaN]. *)
Definition math_max (a b : num) : num :=
  match a, b with
  | NaN, _ | _, NaN => NaN
  | _, _ => if nltb a b then b else a
  end.

Definition math_min (a b : num) : num :=
  match a, b with
  | NaN, _ | _, NaN => NaN
  | _, _ => if nltb b a then b else a
  end.

(** [Math.pow(a, 2)]. *)
Definition pow2 (a : num) : num := nmul a a.

(** Truthiness of a number: neither zero nor [NaN]. *)
Definition truthy (a : num) : bool :=
  match a with
  | Fin q => negb (Qis_zero q)
  | PosInf | NegInf => true
  | NaN => false
  end.

(** Equality of numbers up to the representation of a fraction. *)
Definition num_eq (a b : num) : Prop :=
  match a, b with
  | Fin p, Fin q => p == q
  | PosInf, PosInf | NegInf, NegInf | NaN, NaN => True
  | _, _ => False
  end.

End JSNum.

Export JSNum.

(** ** JavaScript strings

  Strings are sequences of ASCII characters; the character classes
  [\s] and [\w] and the case mapping are the ASCII ones. *)

Module JSString.

Local Open Scope char_scope.

Definition code (c : ascii) : N := N_of_ascii c.

Definition in_range (lo hi : N) (c : ascii) : bool :=
  ((lo <=? code c) && (code c <=? hi))%N.

Definition is_digit (c : ascii) : bool := in_range 48 57 c.
Definition is_upper (c : ascii) : bool := in_range 65 90 c.
Definition is_lower (c : ascii) : bool := in_range 97 122 c.

(** [\s]: space, tab, line feed, vertical tab, form feed, carriage
    return. *)
Definition is_space (c : ascii) : bool :=
  (code c =? 32)%N || in_range 9 13 c.

(** [\w]: letters, digits and the underscore. *)
Definition is_word (c : ascii) : bool :=
  is_digit c || is_upper c || is_lower c || (code c =? 95)%N.

Definition lower_char (c : ascii) : ascii :=
  if is_upper c then ascii_of_N (code c + 32) else c.

Local Open Scope string_scope.

Definition is_empty (s : string) : bool :=
  match s with
  | EmptyString => true
  | String _ _ => false
  end.

(** A string is truthy when it is not empty. *)
Definition truthy (s : string) : bool := negb (is_empty s).

Fixpoint toLowerCase (s : string) : string :=
  match s with
  | EmptyString => EmptyString
  | String c r => String (lower_char c) (toLowerCase r)
  end.

(** [s.replace(/\s+/g, '_')]: [in_run] tells that the previous
    character belonged to a run of white space already replaced. *)
Fixpoint collapse_spaces (in_run : bool) (s : string) : string :=
  match s with
  | EmptyString => EmptyString
  | String c r =>
      if is_space c then
        if in_run then collapse_spaces true r
        else String "_"%char (collapse_spaces true r)
      else String c (collapse_spaces false r)
  end.

(** [s.replace(/[^\w]/g, '')]. *)
Fixpoint strip_nonword (s : string) : string :=
  match s with
  | EmptyString => EmptyString
  | String c r =>
      if is_word c then String c (strip_nonword r) else strip_nonword r
  end.

(** [s.startsWith(p)]. *)
Fixpoint startsWith (s p : string) : bool :=
  match p, s with
  | EmptyString, _ => true
  | String _ _, EmptyString => false
  | String a p', String b s' => Ascii.eqb a b && startsWith s' p'
  end.

(** [s.includes(sub)]. *)
Fixpoint includes (s sub : string) : bool :=
  startsWith s sub ||
  match s with
  | EmptyString => false
  | String _ r => includes r sub
  end.

Fixpoint trimStart (s : string) : string :=
  match s with
  | EmptyString => EmptyString
  | String c r => if is_space c then trimStart r else s
  end.

Fixpoint trimEnd (s : string) : string :=
  match s with
  | EmptyString => EmptyString
  | String c r =>
      let r' := trimEnd r in
      if is_space c && is_empty r' then EmptyString else String c r'
  end.

Definition trim (s : string) : string := trimEnd (trimStart s).

(** [s.split(sep)] for a separator of one character. *)
Fixpoint split (sep : ascii) (s : string) : list string :=
  match s with
  | EmptyString => [EmptyString]
  | String c r =>
      if Ascii.eqb c sep then EmptyString :: split sep r
      else
        match split sep r with
        | h :: t => String c h :: t
        | [] => [String c EmptyString]
        end
  end.

(** [parts.join(sep)]. *)
Fixpoint join (sep : string) (parts : list string) : string :=
  match parts with
  | [] => EmptyString
  | [p] => p
  | p :: rest => p ++ sep ++ join sep rest
  end.

(** [/[\d.,$]/.test(s)]. *)
Fixpoint has_amount_char (s : string) : bool :=
  match s with
  | EmptyString => false
  | String c r =>
      is_digit c || Ascii.eqb c "." || Ascii.eqb c "," || Ascii.eqb c "$"
      || has_amount_char r
  end.

(** [s.replace(/[^0-9.-]/g, '')]. *)
Fixpoint keep_amount_chars (s : string) : string :=
  match s with
  | EmptyString => EmptyString
  | String c r =>
      if is_digit c || Ascii.eqb c "." || Ascii.eqb c "-"
      then String c (keep_amount_chars r)
      else keep_amount_chars r
  end.

(** The longest run of decimal digits at the head of a string, most
    significant digit first, and the rest of the string. *)
Fixpoint take_digits (s : string) : list Z * string :=
  match s with
  | EmptyString => ([], EmptyString)
  | String c r =>
      if is_digit c then
        let '(ds, rest) := take_digits r in
        (Z.of_N (code c) - 48 :: ds, rest)
      else ([], s)
  end.

Definition digits_value (ds : list Z) : Z :=
  fold_left (fun acc d => 10 * acc + d) ds 0.

(** [parseFloat(s)] on the decimal grammar without exponent: leading
    white space, an optional sign, digits, an optional fraction; the
    longest such prefix is read, and [NaN] is returned when there is
    none.  (The strings this program parses hold digits, dots and minus
    signs only.) *)
Definition parseFloat (s : string) : num :=
  let s0 := trimStart s in
  let '(negative, s1) :=
    match s0 with
    | String "-"%char r => (true, r)
    | String "+"%char r => (false, r)
    | _ => (false, s0)
    end in
  let '(ip, s2) := take_digits s1 in
  let fp :=
    match s2 with
    | String "."%char r => fst (take_digits r)
    | _ => []
    end in
  match ip, fp with
  | [], [] => NaN
  | _, _ =>
      let scale := Z.pow 10 (Z.of_nat (length fp)) in
      let magnitude :=
        Qmake (digits_value ip * scale + digits_value fp) (Z.to_pos scale) in
      Fin (if negative then Qopp magnitude else magnitude)
  end.

End JSString.

(** ** Dates

  A [Date] is modelled by its local calendar fields: the year, the
  month, and the milliseconds elapsed since the start of that month.
  Chronological order ([getTime] order) is the lexicographic order on the
  three fields. *)

Module JSDate.

Inductive Month : Type :=
| Jan | Feb | Mar | Apr | May | Jun | Jul | Aug | Sep | Oct | Nov | Dec.

(** The month index returned by [getMonth]: January is 0. *)
Definition index (m : Month) : Z :=
  match m with
  | Jan => 0 | Feb => 1 | Mar => 2 | Apr => 3 | May => 4 | Jun => 5
  | Jul => 6 | Aug => 7 | Sep => 8 | Oct => 9 | Nov => 10 | Dec => 11
  end.

Definition all_months : list Month :=
  [Jan; Feb; Mar; Apr; May; Jun; Jul; Aug; Sep; Oct; Nov; Dec].

Definition of_index (i : Z) : Month :=
  nth (Z.to_nat (i mod 12)) all_months Jan.

Record Date : Type := mkDate
  { getFullYear : Z;
    getMonth : Month;
    sinceMonthStart : Z }.

(** [new Date(year, monthIndex, 1)]: years 0 to 99 denote 1900 to 1999,
    and a month index outside 0..11 carries into the year. *)
Definition newDate (year monthIndex : Z) : Date :=
  let y := if (0 <=? year) && (year <=? 99) then 1900 + year else year in
  mkDate (y + monthIndex / 12) (of_index monthIndex) 0.

(** [a.getTime() === b.getTime()]. *)
Definition same_time (a b : Date) : bool :=
  (getFullYear a =? getFullYear b) && (index (getMonth a) =? index (getMonth b))
  && (sinceMonthStart a =? sinceMonthStart b).

(** [a < b] on dates. *)
Definition before (a b : Date) : bool :=
  (getFullYear a <? getFullYear b)
  || ((getFullYear a =? getFullYear b)
      && ((index (getMonth a) <? index (getMonth b))
          || ((index (getMonth a) =? index (getMonth b))
              && (sinceMonthStart a <? sinceMonthStart b)))).

(** [a > b] on dates. *)
Definition after (a b : Date) : bool := before b a.

(** [a <= b] on dates, as a proposition. *)
Definition le (a b : Date) : Prop := before b a = false.

(** [new Date(Math.max(...dates.map(d => d.getTime())))] for a list
    with head [d] and tail [ds]. *)
Definition latest (d : Date) (ds : list Date) : Date :=
  fold_left (fun best x => if before best x then x else best) ds d.

(** [subMonths(d, 1)] of date-fns, for a date at the start of a month. *)
Definition subMonths1 (d : Date) : Date :=
  match getMonth d with
  | Jan => mkDate (getFullYear d - 1) Dec (sinceMonthStart d)
  | m => mkDate (getFullYear d) (of_index (index m - 1)) (sinceMonthStart d)
  end.

Definition abbreviations : list string :=
  ["Jan"; "Feb"; "Mar"; "Apr"; "May"; "Jun";
   "Jul"; "Aug"; "Sep"; "Oct"; "Nov"; "Dec"]%string.

Definition monthNames : list string :=
  ["january"; "february"; "march"; "april"; "may"; "june";
   "july"; "august"; "september"; "october"; "november"; "december"]%string.

Definition capitalised : list string :=
  ["January"; "February"; "March"; "April"; "May"; "June";
   "July"; "August"; "September"; "October"; "November"; "December"]%string.

Definition name_in (table : list string) (m : Month) : string :=
  nth (Z.to_nat (index m)) table EmptyString.

(** The year printed by the pattern [yyyy]: at least four digits. *)
Definition yyyy (year : Z) : string :=
  let digits := pretty (Z.abs year) in
  String.string_of_list_ascii
    (repeat "0"%char (4 - String.length digits)) +:+ digits.

(** [format(d, 'MMM yyyy')] and [format(d, 'MMMM yyyy')]. *)
Definition format_MMM_yyyy (d : Date) : string :=
  name_in abbreviations (getMonth d) +:+ " " +:+ yyyy (getFullYear d).

Definition format_MMMM_yyyy (d : Date) : string :=
  name_in capitalised (getMonth d) +:+ " " +:+ yyyy (getFullYear d).

End JSDate.

Export JSString JSDate.

(** ** The data model ([src/types]) *)

Inductive Frequency : Type :=
| one_time | occasional | regular | frequent.

Inductive TrendDirection : Type :=
| up | down | stable.

Module Donation.
Record t : Type := mk
  { id : string;
    firstName : string;
    lastName : string;
    amount : num;
    date : Date;
    month : string;
    year : Z;
    email : option string;
    phone : option string;
    donorId : string }.

(** [donation.donorId = id]. *)
Definition with_donorId (d : t) (i : string) : t :=
  mk (id d) (firstName d) (lastName d) (amount d) (date d) (month d)
     (year d) (email d) (phone d) i.
End Donation.

Module DonorData.
Record t : Type := mk
  { id : string;
    firstName : string;
    lastName : string;
    email : option string;
    phone : option string;
    donations : list Donation.t;
    totalAmount : num;
    donationCount : nat;
    averageDonation : num;
    firstDonation : Date;
    lastDonation : Date;
    donationFrequency : Frequency }.
End DonorData.

Module MonthlyTrend.
Record t : Type := mk
  { month : string;
    year : Z;
    amount : num;
    donorCount : nat;
    averageDonation : num }.
End MonthlyTrend.

Module RetentionData.
Record t : Type := mk
  { newDonors : nat;
    returningDonors : nat;
    retentionRate : num;
    churnRate : num }.
End RetentionData.

Module Prediction.
Record t : Type := mk
  { predictedAmount : num;
    confidence : num }.
End Prediction.

Module ForecastData.
Record t : Type := mk
  { nextMonth : Prediction.t;
    nextQuarter : Prediction.t;
    trendDirection : TrendDirection }.
End ForecastData.

Module AnalysisResult.
Record t : Type := mk
  { totalDonors : nat;
    totalAmount : num;
    averageDonation : num;
    donationCount : nat;
    topDonors : list DonorData.t;
    monthlyTrends : list MonthlyTrend.t;
    donorRetention : RetentionData.t;
    forecast : ForecastData.t }.
End AnalysisResult.

(** ** What the program takes from its environment

  [generateId n] is the identifier returned by the [n]-th call of
  [generateId()] ([src/utils/helpers], not part of the sources at hand);
  [dateFnsParse s f] is [parse(s, f, new Date())] of date-fns when the
  result is a valid date; [nativeDate s] is [new Date(s)] when valid;
  [now] is [new Date()]. *)

Module Runtime.
Record t : Type := mk
  { generateId : nat -> string;
    dateFnsParse : string -> string -> option Date;
    nativeDate : string -> option Date;
    now : Date }.
End Runtime.

(** ** Objects and maps in insertion order *)

Module Assoc.
Section Assoc.
Context {K V : Type} (eqb : K -> K -> bool).

Fixpoint get (m : list (K * V)) (k : K) : option V :=
  match m with
  | [] => None
  | (k', v) :: rest => if eqb k' k then Some v else get rest k
  end.

(** [m.set(k, v)]: a present key keeps its place. *)
Fixpoint set (m : list (K * V)) (k : K) (v : V) : list (K * V) :=
  match m with
  | [] => [(k, v)]
  | (k', v') :: rest =>
      if eqb k' k then (k, v) :: rest else (k', v') :: set rest k v
  end.
End Assoc.
End Assoc.

(** [array.sort(compare)]: a stable insertion sort; [later y x] tells that
  [compare(y, x) > 0], that is, [y] has to come after [x]. *)

Section Sort.
Context {A : Type} (later : A -> A -> bool).

Fixpoint sort_insert (x : A) (l : list A) : list A :=
  match l with
  | [] => [x]
  | y :: rest => if later y x then x :: y :: rest else y :: sort_insert x rest
  end.

Definition sort (l : list A) : list A :=
  fold_left (fun sorted x => sort_insert x sorted) l [].
End Sort.

(** [array.reduce((acc, x, i) => f(acc, x, i), init)]. *)
Definition reduce_indexed {A B : Type} (f : B -> A -> nat -> B)
  (l : list A) (init : B) : B :=
fst (fold_left (fun '(acc, i) x => (f acc x i, S i)) l (init, 0%nat)).

(** [array.indexOf(x)] on strings: -1 when absent. *)
Fixpoint indexOf (l : list string) (x : string) : Z :=
match l with
| [] => -1
| y :: rest =>
    if String.eqb y x then 0
    else let i := indexOf rest x in if i <? 0 then -1 else i + 1
end.

(** ** [dateUtils.parseDate] and [dateUtils.getMonthsBetween] *)

Module DateUtils.

Definition formats : list string :=
  ["MM/dd/yyyy"; "M/d/yyyy"; "MM-dd-yyyy"; "M-d-yyyy"; "yyyy-MM-dd";
   "dd/MM/yyyy"; "yyyy/MM/dd"; "dd-MM-yyyy"; "MMM dd, yyyy";
   "dd MMM yyyy"]%string.

Fixpoint first_valid (rt : Runtime.t) (dateString : string)
    (fs : list string) : option Date :=
  match fs with
  | [] => None
  | f :: rest =>
      match Runtime.dateFnsParse rt dateString f with
      | Some parsed => Some parsed
      | None => first_valid rt dateString rest
      end
  end.

Definition parseDate (rt : Runtime.t) (dateString : string) : option Date :=
  match first_valid rt dateString formats with
  | Some parsed => Some parsed
  | None => Runtime.nativeDate rt dateString
  end.

Definition getMonthsBetween (startDate endDate : Date) : Z :=
  let start := newDate (getFullYear startDate) (index (getMonth startDate)) in
  let end_ := newDate (getFullYear endDate) (index (getMonth endDate)) in
  (getFullYear end_ - getFullYear start) * 12
  + (index (getMonth end_) - index (getMonth start)).

End DateUtils.

(** ** [DataParser]

  A raw row is the object the CSV reader delivers: header and cell pairs
  in the order of [Object.keys], which is the column order but for the
  headers that are array indices.  The reader runs with
  [dynamicTyping: false], so every cell is a string; the
  [typeof value === 'number'] alternatives of the source are left out.
  A mapped value that is [undefined] is [None]. *)

Definition RawDataRow : Type := list (string * string).

Inductive Field : Type :=
| FirstName | LastName | Amount | DateField | MonthField | Email | Phone.

Module Mapped.
Record t : Type := mk
  { firstName : option string;
    lastName : option string;
    amount : option string;
    date : option string;
    month : option string;
    email : option string;
    phone : option string;
    name : option string }.

Definition empty : t := mk None None None None None None None None.

(** [mapped[fieldName]]. *)
Definition get (f : Field) (m : t) : option string :=
  match f with
  | FirstName => firstName m
  | LastName => lastName m
  | Amount => amount m
  | DateField => date m
  | MonthField => month m
  | Email => email m
  | Phone => phone m
  end.

(** [mapped[fieldName] = v]. *)
Definition set (f : Field) (v : option string) (m : t) : t :=
  match f with
  | FirstName =>
      mk v (lastName m) (amount m) (date m) (month m) (email m) (phone m) (name m)
  | LastName =>
      mk (firstName m) v (amount m) (date m) (month m) (email m) (phone m) (name m)
  | Amount =>
      mk (firstName m) (lastName m) v (date m) (month m) (email m) (phone m) (name m)
  | DateField =>
      mk (firstName m) (lastName m) (amount m) v (month m) (email m) (phone m) (name m)
  | MonthField =>
      mk (firstName m) (lastName m) (amount m) (date m) v (email m) (phone m) (name m)
  | Email =>
      mk (firstName m) (lastName m) (amount m) (date m) (month m) v (phone m) (name m)
  | Phone =>
      mk (firstName m) (lastName m) (amount m) (date m) (month m) (email m) v (name m)
  end.

(** [mapped.name = v]. *)
Definition set_name (v : option string) (m : t) : t :=
  mk (firstName m) (lastName m) (amount m) (date m) (month m) (email m)
     (phone m) v.
End Mapped.

Module DataParser.

Local Open Scope string_scope.

Definition COMMON_FIELD_MAPPINGS : list (Field * list string) :=
  [ (FirstName, ["first_name"; "firstname"; "fname"; "first"; "given_name";
                 "givenname"; "name"]);
    (LastName, ["last_name"; "lastname"; "lname"; "last"; "surname";
                "family_name"; "familyname"]);
    (Amount, ["amount"; "donation"; "gift"; "contribution"; "value";
              "total"; "sum"; "dollars"; "money"]);
    (DateField, ["date"; "donation_date"; "gift_date"; "received_date";
                 "received_on"; "receivedon"; "createdon"; "created_on";
                 "timestamp"; "when"; "time"]);
    (MonthField, ["month"; "donation_month"; "gift_month"; "period"]);
    (Email, ["email"; "email_address"; "e_mail"; "mail"; "emailaddress"]);
    (Phone, ["phone"; "phone_number"; "telephone"; "mobile"; "phonenumber";
             "tel"; "mobilenumber"; "mobile_number"]) ].

(** Truthiness of a mapped value: defined and not the empty string. *)
Definition truthy (v : option string) : bool :=
  match v with
  | Some s => JSString.truthy s
  | None => false
  end.

(** [a || b] on mapped values, and [a || ''] on a mapped value. *)
Definition or_else (a b : option string) : option string :=
  if truthy a then a else b.

Definition or_empty (a : option string) : string :=
  match a with
  | Some s => s
  | None => ""
  end.

(** [key.toLowerCase().replace(/\s+/g, '_').replace(/[^\w]/g, '')]. *)
Definition normalizeKey (key : string) : string :=
  strip_nonword (collapse_spaces false (toLowerCase key)).

(** The object [normalizedRow], as the list of its entries in the order of
    insertion.  The engine enumerates the keys that are array indices
    before the other keys; such a key is made of digits only, and the
    entries with such a key have no effect on the mapping (this is proved
    with the properties of the mapper), so their place is immaterial. *)
Definition normalizeRow (row : RawDataRow) : RawDataRow :=
  fold_left
    (fun normalizedRow '(key, value) =>
       Assoc.set String.eqb normalizedRow (normalizeKey key) value)
    row [].

(** The first loop over the patterns of a field: the first pattern that
    is a key of the normalized row gives the value. *)
Fixpoint exactMatch (normalizedRow : RawDataRow) (patterns : list string)
    : option string :=
  match patterns with
  | [] => None
  | pattern :: rest =>
      let normalizedPattern := strip_nonword pattern in
      match Assoc.get String.eqb normalizedRow normalizedPattern,
            Assoc.get String.eqb normalizedRow pattern with
      | None, None => exactMatch normalizedRow rest
      | a, b => or_else a b
      end
  end.

(** Containment of a key in a pattern or of a pattern in a key. *)
Definition partially_matches (key : string) (patterns : list string) : bool :=
  existsb
    (fun pattern =>
       includes key (strip_nonword pattern)
       || includes (strip_nonword pattern) key)
    patterns.

(** The second loop: the first entry whose key partially matches. *)
Fixpoint partialMatch (entries : RawDataRow) (patterns : list string)
    : option string :=
  match entries with
  | [] => None
  | (key, value) :: rest =>
      if partially_matches key patterns then Some value
      else partialMatch rest patterns
  end.

Definition mapField (normalizedRow : RawDataRow) (mapped : Mapped.t)
    (entry : Field * list string) : Mapped.t :=
  let '(fieldName, patterns) := entry in
  let mapped1 :=
    match exactMatch normalizedRow patterns with
    | Some v => Mapped.set fieldName (Some v) mapped
    | None => mapped
    end in
  match Mapped.get fieldName mapped1 with
  | None =>
      match partialMatch normalizedRow patterns with
      | Some v => Mapped.set fieldName (Some v) mapped1
      | None => mapped1
      end
  | Some _ => mapped1
  end.

(** The three loops that look at the content of the columns. *)
Definition detectNames (mapped : Mapped.t) (entry : string * string)
    : Mapped.t :=
  let '(key, value) := entry in
  if JSString.truthy (trim value) then
    if negb (truthy (Mapped.firstName mapped))
       && (includes key "name" || includes key "first")
    then Mapped.set FirstName (Some value) mapped
    else if negb (truthy (Mapped.lastName mapped))
            && (includes key "last" || includes key "surname")
    then Mapped.set LastName (Some value) mapped
    else mapped
  else mapped.

Definition detectAmount (mapped : Mapped.t) (entry : string * string)
    : Mapped.t :=
  let '(key, value) := entry in
  if has_amount_char value
     && (includes key "amount" || includes key "donation"
         || includes key "gift" || includes key "total")
  then Mapped.set Amount (Some value) mapped
  else mapped.

Definition detectFullName (mapped : Mapped.t) (entry : string * string)
    : Mapped.t :=
  let '(key, value) := entry in
  if JSString.truthy (trim value) && includes key "name"
     && negb (includes key "fund") && negb (includes key "batch")
  then Mapped.set_name (Some value) mapped
  else mapped.

Definition mapFields (row : RawDataRow) : Mapped.t :=
  let normalizedRow := normalizeRow row in
  let mapped0 :=
    fold_left (mapField normalizedRow) COMMON_FIELD_MAPPINGS Mapped.empty in
  let mapped1 :=
    if negb (truthy (Mapped.firstName mapped0))
       || negb (truthy (Mapped.lastName mapped0))
    then fold_left detectNames normalizedRow mapped0
    else mapped0 in
  let mapped2 :=
    if negb (truthy (Mapped.amount mapped1))
    then fold_left detectAmount normalizedRow mapped1
    else mapped1 in
  if negb (truthy (Mapped.firstName mapped2))
     && negb (truthy (Mapped.lastName mapped2))
  then fold_left detectFullName normalizedRow mapped2
  else mapped2.

Definition parseAmount (value : option string) : num :=
  match value with
  | Some s =>
      match parseFloat (trim (keep_amount_chars s)) with
      | NaN => zero
      | parsed => parsed
      end
  | None => zero
  end.

(** [array.findIndex(p)]: -1 when no element passes. *)
Fixpoint findIndex {A : Type} (p : A -> bool) (l : list A) : Z :=
  match l with
  | [] => -1
  | x :: rest =>
      if p x then 0
      else (let i := findIndex p rest in if i <? 0 then -1 else i + 1)%Z
  end.

(** [parseMonth]: a month number from 1 to 12, or [null]. *)
Definition parseMonth (value : string) : option Z :=
  let normalized := toLowerCase value in
  let monthIndex :=
    findIndex (fun month => startsWith month normalized) monthNames in
  if (monthIndex =? -1)%Z then None else Some (monthIndex + 1)%Z.

Definition parseDate (rt : Runtime.t) (dateValue monthValue : option string)
    : Date :=
  let parsed :=
    if truthy dateValue then DateUtils.parseDate rt (or_empty dateValue)
    else None in
  match parsed with
  | Some d => d
  | None =>
      let month :=
        if truthy monthValue then parseMonth (or_empty monthValue)
        else None in
      match month with
      | Some m =>
          if (m =? 0)%Z then Runtime.now rt
          else newDate (getFullYear (Runtime.now rt)) (m - 1)%Z
      | None =>
          (* Use current date as fallback *)
          Runtime.now rt
      end
  end.

Definition extractMonth (rt : Runtime.t) (dateValue monthValue : option string)
    : string :=
  format_MMMM_yyyy (parseDate rt dateValue monthValue).

Definition extractYear (rt : Runtime.t) (dateValue : option string) : Z :=
  getFullYear (parseDate rt dateValue None).

(** The body of the [map] callback of [processRawData] on a mapped row;
    [next] counts the identifiers generated so far. *)
Definition buildDonation (rt : Runtime.t) (mappedRow : Mapped.t) (next : nat)
    : option Donation.t * nat :=
  if (negb (truthy (Mapped.firstName mappedRow))
      && negb (truthy (Mapped.lastName mappedRow)))
     || negb (truthy (Mapped.amount mappedRow))
  then (None, next)
  else
    let firstName0 := or_empty (or_else (Mapped.firstName mappedRow) (Some "")) in
    let lastName0 := or_empty (or_else (Mapped.lastName mappedRow) (Some "")) in
    let '(firstName, lastName) :=
      if negb (JSString.truthy firstName0) && negb (JSString.truthy lastName0)
         && truthy (Mapped.name mappedRow)
      then
        let nameParts := split " "%char (trim (or_empty (Mapped.name mappedRow))) in
        (hd "" nameParts, join " " (tl nameParts))
      else (firstName0, lastName0) in
    if negb (JSString.truthy firstName) && negb (JSString.truthy lastName)
    then (None, next)
    else
      (Some
         (Donation.mk
            (Runtime.generateId rt next)
            (trim firstName)
            (trim lastName)
            (parseAmount (Mapped.amount mappedRow))
            (parseDate rt (Mapped.date mappedRow) (Mapped.month mappedRow))
            (extractMonth rt (Mapped.date mappedRow) (Mapped.month mappedRow))
            (extractYear rt (Mapped.date mappedRow))
            (if truthy (Mapped.email mappedRow)
             then Some (trim (or_empty (Mapped.email mappedRow))) else None)
            (if truthy (Mapped.phone mappedRow)
             then Some (trim (or_empty (Mapped.phone mappedRow))) else None)
            ""),
       S next).

(** The [filter] callback of [processRawData]; a [Date] object is always
    truthy. *)
Definition accepted (donation : option Donation.t) : bool :=
  match donation with
  | None => false
  | Some d =>
      (JSString.truthy (Donation.firstName d)
       || JSString.truthy (Donation.lastName d))
      && ngtb (Donation.amount d) zero
      && true
  end.

Fixpoint mapRows (rt : Runtime.t) (rawData : list RawDataRow) (next : nat)
    : list (option Donation.t) * nat :=
  match rawData with
  | [] => ([], next)
  | row :: rest =>
      let '(donation, next1) := buildDonation rt (mapFields row) next in
      let '(others, next2) := mapRows rt rest next1 in
      (donation :: others, next2)
  end.

Definition processRawData (rt : Runtime.t) (rawData : list RawDataRow)
    (next : nat) : list Donation.t * nat :=
  let '(built, next1) := mapRows rt rawData next in
  (omap (fun donation => donation) (List.filter accepted built), next1).

Definition calculateDonationFrequency (count : nat) : Frequency :=
  if (count =? 1)%nat then one_time
  else if (count <=? 3)%nat then occasional
  else if (count <=? 6)%nat then regular
  else frequent.

(** The grouping key of a donation. *)
Definition donorKey (donation : Donation.t) : string :=
  toLowerCase (Donation.firstName donation) +:+ "_"
  +:+ toLowerCase (Donation.lastName donation).

(** The donor created for a key seen for the first time. *)
Definition newDonor (donorId : string) (donation : Donation.t) : DonorData.t :=
  DonorData.mk donorId
    (Donation.firstName donation) (Donation.lastName donation)
    (Donation.email donation) (Donation.phone donation)
    [] zero 0%nat zero
    (Donation.date donation) (Donation.date donation) one_time.

(** What the loop body does to the donor of the key. *)
Definition addDonation (donor : DonorData.t) (donation : Donation.t)
    : DonorData.t :=
  DonorData.mk
    (DonorData.id donor)
    (DonorData.firstName donor) (DonorData.lastName donor)
    (DonorData.email donor) (DonorData.phone donor)
    (DonorData.donations donor
     ++ [Donation.with_donorId donation (DonorData.id donor)])
    (nadd (DonorData.totalAmount donor) (Donation.amount donation))
    (S (DonorData.donationCount donor))
    (DonorData.averageDonation donor)
    (if before (Donation.date donation) (DonorData.firstDonation donor)
     then Donation.date donation else DonorData.firstDonation donor)
    (if after (Donation.date donation) (DonorData.lastDonation donor)
     then Donation.date donation else DonorData.lastDonation donor)
    (DonorData.donationFrequency donor).

Definition DonorMap : Type := list (string * DonorData.t).

Definition groupStep (rt : Runtime.t) (state : DonorMap * nat)
    (donation : Donation.t) : DonorMap * nat :=
  let '(donorMap, next) := state in
  let key := donorKey donation in
  match Assoc.get String.eqb donorMap key with
  | Some donor =>
      (Assoc.set String.eqb donorMap key (addDonation donor donation), next)
  | None =>
      (Assoc.set String.eqb donorMap key
         (addDonation (newDonor (Runtime.generateId rt next) donation) donation),
       S next)
  end.

(** The derived fields computed once all donations are consumed. *)
Definition derive (donor : DonorData.t) : DonorData.t :=
  DonorData.mk
    (DonorData.id donor)
    (DonorData.firstName donor) (DonorData.lastName donor)
    (DonorData.email donor) (DonorData.phone donor)
    (DonorData.donations donor)
    (DonorData.totalAmount donor)
    (DonorData.donationCount donor)
    (ndiv (DonorData.totalAmount donor) (of_nat (DonorData.donationCount donor)))
    (DonorData.firstDonation donor) (DonorData.lastDonation donor)
    (calculateDonationFrequency (DonorData.donationCount donor)).

Definition groupByDonor (rt : Runtime.t) (donations : list Donation.t)
    (next : nat) : list DonorData.t * nat :=
  let '(donorMap, next1) := fold_left (groupStep rt) donations ([], next) in
  (map (fun entry => derive (snd entry)) donorMap, next1).

End DataParser.

(** ** [DonorAnalytics] *)

Module DonorAnalytics.

(** A bucket of [monthlyData]: the summed amount and the set of the
    identifiers of the donors who gave in the month. *)
Record Bucket : Type := mkBucket
  { bucketAmount : num;
    bucketDonors : gset string }.

(** The key [`${year}-${month}`] of a bucket, with the month number
    padded to two digits, is modelled by the pair of the year and the
    month number it encodes and from which [split('-')] and [parseInt]
    read them back. *)
Definition MonthKey : Type := (Z * Z)%type.

Definition monthKey (date : Date) : MonthKey :=
  (getFullYear date, index (getMonth date) + 1).

Definition monthKey_eqb (a b : MonthKey) : bool :=
  (fst a =? fst b) && (snd a =? snd b).

Definition MonthlyData : Type := list (MonthKey * Bucket).

(** The body of the inner [forEach] of [calculateMonthlyTrends]. *)
Definition addToBucket (donorId : string) (monthlyData : MonthlyData)
    (donation : Donation.t) : MonthlyData :=
  let key := monthKey (Donation.date donation) in
  let data :=
    match Assoc.get monthKey_eqb monthlyData key with
    | Some data => data
    | None => mkBucket zero ∅
    end in
  Assoc.set monthKey_eqb monthlyData key
    (mkBucket (nadd (bucketAmount data) (Donation.amount donation))
              ({[ donorId ]} ∪ bucketDonors data)).

Definition addDonor (monthlyData : MonthlyData) (donor : DonorData.t)
    : MonthlyData :=
  fold_left (addToBucket (DonorData.id donor)) (DonorData.donations donor)
    monthlyData.

Definition collectMonthlyData (donors : list DonorData.t) : MonthlyData :=
  fold_left addDonor donors [].

Definition getMonthNumber (monthName : string) : Z :=
  indexOf abbreviations monthName + 1.

(** The [map] callback of [calculateMonthlyTrends]. *)
Definition toTrend (entry : MonthKey * Bucket) : MonthlyTrend.t :=
  let '((year, month), data) := entry in
  let date := newDate year (month - 1) in
  MonthlyTrend.mk
    (format_MMM_yyyy date)
    year
    (bucketAmount data)
    (size (bucketDonors data))
    (ndiv (bucketAmount data) (of_nat (size (bucketDonors data)))).

(** [a.month.split(' ')[0]]. *)
Definition monthToken (trend : MonthlyTrend.t) : string :=
  hd EmptyString (split " "%char (MonthlyTrend.month trend)).

(** The comparison function given to [sort]:
    [a.year - b.year || getMonthNumber(..) - getMonthNumber(..)]. *)
Definition compareTrends (a b : MonthlyTrend.t) : Z :=
  let byYear := MonthlyTrend.year a - MonthlyTrend.year b in
  if byYear =? 0
  then getMonthNumber (monthToken a) - getMonthNumber (monthToken b)
  else byYear.

Definition calculateMonthlyTrends (donors : list DonorData.t)
    : list MonthlyTrend.t :=
  sort (fun a b => 0 <? compareTrends a b)
       (map toTrend (collectMonthlyData donors)).

(** The two sets of donor identifiers of [calculateRetention]. *)
Definition monthDonors (target : Date) (donors : list DonorData.t)
    : gset string :=
  fold_left
    (fun acc donor =>
       fold_left
         (fun acc donation =>
            let donationDate :=
              newDate (getFullYear (Donation.date donation))
                      (index (getMonth (Donation.date donation))) in
            if same_time donationDate target
            then {[ DonorData.id donor ]} ∪ acc else acc)
         (DonorData.donations donor) acc)
    donors ∅.

Definition has_frequency (fs : list Frequency) (d : DonorData.t) : bool :=
  existsb
    (fun f =>
       match f, DonorData.donationFrequency d with
       | one_time, one_time | occasional, occasional
       | regular, regular | frequent, frequent => true
       | _, _ => false
       end)
    fs.

Definition allDonationDates (donors : list DonorData.t) : list Date :=
  flat_map (fun donor => map Donation.date (DonorData.donations donor)) donors.

(** [currentMonth] and [lastMonth], when there is a donation at all. *)
Definition referenceMonths (donors : list DonorData.t) : option (Date * Date) :=
  match allDonationDates donors with
  | [] => None
  | d :: ds =>
      let mostRecentDate := latest d ds in
      let currentMonth :=
        newDate (getFullYear mostRecentDate) (index (getMonth mostRecentDate)) in
      Some (currentMonth, subMonths1 currentMonth)
  end.

(** The test that switches to the retention based on frequencies. *)
Definition limitedMonthlyData (lastMonthDonors currentMonthDonors : gset string)
    : bool :=
  (size lastMonthDonors =? 0)%nat || (size currentMonthDonors =? 0)%nat.

Definition calculateRetention (donors : list DonorData.t) : RetentionData.t :=
  match referenceMonths donors with
  | None => RetentionData.mk 0 0 zero zero
  | Some (currentMonth, lastMonth) =>
      let currentMonthDonors := monthDonors currentMonth donors in
      let lastMonthDonors := monthDonors lastMonth donors in
      let returningDonors :=
        length (List.filter (fun id => bool_decide (id ∈ lastMonthDonors))
                            (elements currentMonthDonors)) in
      let newDonors := (size currentMonthDonors - returningDonors)%nat in
      let retentionRate :=
        if (0 <? size lastMonthDonors)%nat
        then ndiv (of_nat returningDonors) (of_nat (size lastMonthDonors))
        else zero in
      let '(returningDonors, newDonors, retentionRate) :=
        if limitedMonthlyData lastMonthDonors currentMonthDonors
        then
          let frequentDonors :=
            length (List.filter (has_frequency [frequent; regular]) donors) in
          let occasionalDonors :=
            length (List.filter (has_frequency [occasional]) donors) in
          let oneTimeDonors :=
            length (List.filter (has_frequency [one_time]) donors) in
          let returningDonors := (frequentDonors + occasionalDonors)%nat in
          (returningDonors,
           oneTimeDonors,
           if (0 <? length donors)%nat
           then ndiv (of_nat returningDonors) (of_nat (length donors))
           else zero)
        else (returningDonors, newDonors, retentionRate) in
      let churnRate := nsub one retentionRate in
      RetentionData.mk newDonors returningDonors retentionRate churnRate
  end.

(** The retention calculator is in its fallback mode on [donors]: it
    reaches the test above and the test succeeds. *)
Definition fallbackMode (donors : list DonorData.t) : bool :=
  match referenceMonths donors with
  | None => false
  | Some (currentMonth, lastMonth) =>
      limitedMonthlyData (monthDonors lastMonth donors)
                         (monthDonors currentMonth donors)
  end.

Record Regression : Type := mkRegression
  { slope : num;
    intercept : num;
    rSquared : num }.

(** [regression.predict(x)]. *)
Definition predict (r : Regression) (x : num) : num :=
  nadd (nmul (slope r) x) (intercept r).

Definition calculateLinearRegression (values : list num) : Regression :=
  let n := of_nat (length values) in
  let sumX := reduce_indexed (fun sum _ i => nadd sum (of_nat i)) values zero in
  let sumY := fold_left (fun sum val => nadd sum val) values zero in
  let sumXY :=
    reduce_indexed (fun sum val i => nadd sum (nmul (of_nat i) val)) values zero in
  let sumXX :=
    reduce_indexed (fun sum _ i => nadd sum (nmul (of_nat i) (of_nat i)))
      values zero in
  let slope :=
    ndiv (nsub (nmul n sumXY) (nmul sumX sumY))
         (nsub (nmul n sumXX) (nmul sumX sumX)) in
  let intercept := ndiv (nsub sumY (nmul slope sumX)) n in
  let yMean := ndiv sumY n in
  let ssRes :=
    reduce_indexed
      (fun sum val i =>
         let predicted := nadd (nmul slope (of_nat i)) intercept in
         nadd sum (pow2 (nsub val predicted)))
      values zero in
  let ssTot :=
    fold_left (fun sum val => nadd sum (pow2 (nsub val yMean))) values zero in
  let rSquared := nsub one (ndiv ssRes ssTot) in
  mkRegression slope intercept rSquared.

(** [amounts.slice(-6)]. *)
Definition lastSix {A : Type} (l : list A) : list A :=
  drop (length l - 6) l.

Definition generateForecast (monthlyTrends : list MonthlyTrend.t)
    : ForecastData.t :=
  if (length monthlyTrends <? 3)%nat then
    ForecastData.mk (Prediction.mk zero zero) (Prediction.mk zero zero) stable
  else
    let amounts := map MonthlyTrend.amount monthlyTrends in
    let recentTrends := lastSix amounts in
    let regression := calculateLinearRegression recentTrends in
    let nextMonthPrediction :=
      predict regression (of_nat (length recentTrends)) in
    let nextQuarterPrediction :=
      ndiv
        (nadd
           (nadd (predict regression (of_nat (length recentTrends + 1)))
                 (predict regression (of_nat (length recentTrends + 2))))
           (predict regression (of_nat (length recentTrends + 3))))
        (of_Z 3) in
    let confidence := math_max zero (math_min one (rSquared regression)) in
    let trendDirection :=
      if ngtb (slope regression) (Fin (1 # 10)) then up
      else if nltb (slope regression) (Fin (- (1 # 10))) then down
      else stable in
    ForecastData.mk
      (Prediction.mk (math_max zero nextMonthPrediction) confidence)
      (Prediction.mk (math_max zero nextQuarterPrediction) confidence)
      trendDirection.

(** [analyzeData]; [donors.sort] sorts the array in place, so the later
    computations read the donors in the sorted order. *)
Definition analyzeData (donors : list DonorData.t) : AnalysisResult.t :=
  let totalDonors := length donors in
  let totalAmount :=
    fold_left (fun sum donor => nadd sum (DonorData.totalAmount donor))
      donors zero in
  let donationCount :=
    fold_left (fun sum donor => (sum + DonorData.donationCount donor)%nat)
      donors 0%nat in
  let averageDonation := ndiv totalAmount (of_nat donationCount) in
  let sorted :=
    sort
      (fun a b =>
         ngtb (nsub (DonorData.totalAmount b) (DonorData.totalAmount a)) zero)
      donors in
  let topDonors := take 10 sorted in
  let monthlyTrends := calculateMonthlyTrends sorted in
  let donorRetention := calculateRetention sorted in
  let forecast := generateForecast monthlyTrends in
  AnalysisResult.mk totalDonors totalAmount averageDonation donationCount
    topDonors monthlyTrends donorRetention forecast.




End DonorAnalytics.

(** ** [EconomicDataService.calculateTrend] ([economicDataService.ts]) *)

Module EconomicDataPoint.
Record t : Type := mk
  { date : Date;
    value : num;
    indicator : string }.
End EconomicDataPoint.

Module EconomicDataService.

(** [data.slice(-3)] and [data.slice(-6, -3)]. *)
Definition lastThree {A : Type} (l : list A) : list A :=
  drop (length l - 3) l.

Definition threeBefore {A : Type} (l : list A) : list A :=
  take ((length l - 3) - (length l - 6)) (drop (length l - 6) l).

Definition calculateTrend (data : list EconomicDataPoint.t) : TrendDirection :=
  if (length data <? 2)%nat then stable
  else
    let recent := lastThree data in
    let older := threeBefore data in
    if (length recent =? 0)%nat || (length older =? 0)%nat then stable
    else
      let recentAvg :=
        ndiv (fold_left (fun sum d => nadd sum (EconomicDataPoint.value d))
                recent zero)
             (of_nat (length recent)) in
      let olderAvg :=
        ndiv (fold_left (fun sum d => nadd sum (EconomicDataPoint.value d))
                older zero)
             (of_nat (length older)) in
      let change := ndiv (nsub recentAvg olderAvg) (nabs olderAvg) in
      if ngtb change (Fin (2 # 100)) then up
      else if nltb change (Fin (- (2 # 100))) then down
      else stable.

End EconomicDataService.

(** ** [calculatePearsonCorrelation] ([CorrelationAnalysis.tsx])

  The coefficient and the two labels read off it.  [None] is [NaN]: it
  arises from [y[i]] read past the end of [y] and from the square root
  of a negative number. *)

Module Correlation.

Local Open Scope R_scope.

Inductive Strength : Type :=
| VeryStrong | Strong | Moderate | Weak | VeryWeak.

Inductive Direction : Type :=
| Positive | Negative.

(** [x.reduce((sum, xi, i) => sum + xi * y[i], 0)]. *)
Definition sumProducts (x y : list R) : option R :=
  reduce_indexed
    (fun sum xi i =>
       match sum, y !! i with
       | Some s, Some yi => Some (s + xi * yi)
       | _, _ => None
       end)
    x (Some 0).

Definition coefficient (x y : list R) : option R :=
  let n := INR (length x) in
  if (length x =? 0)%nat then Some 0
  else
    let sumX := fold_left (fun a b => a + b) x 0 in
    let sumY := fold_left (fun a b => a + b) y 0 in
    let sumXY := sumProducts x y in
    let sumX2 := fold_left (fun sum xi => sum + xi * xi) x 0 in
    let sumY2 := fold_left (fun sum yi => sum + yi * yi) y 0 in
    let numerator :=
      match sumXY with
      | Some sxy => Some (n * sxy - sumX * sumY)
      | None => None
      end in
    let radicand := (n * sumX2 - sumX * sumX) * (n * sumY2 - sumY * sumY) in
    if Rlt_dec radicand 0 then None
    else
      let denominator := sqrt radicand in
      if Req_dec_T denominator 0 then Some 0
      else
        match numerator with
        | Some num => Some (num / denominator)
        | None => None
        end.

Definition strength (coefficient : option R) : Strength :=
  match coefficient with
  | None => VeryWeak
  | Some c =>
      let absCoeff := Rabs c in
      if Rle_dec (8 / 10) absCoeff then VeryStrong
      else if Rle_dec (6 / 10) absCoeff then Strong
      else if Rle_dec (4 / 10) absCoeff then Moderate
      else if Rle_dec (2 / 10) absCoeff then Weak
      else VeryWeak
  end.

Definition direction (coefficient : option R) : Direction :=
  match coefficient with
  | Some c => if Rle_dec 0 c then Positive else Negative
  | None => Negative
  end.

End Correlation.

(** ** Notions used to state the properties *)

Module Stated.

(** [sum(d.amount for d in donations)]. *)
Definition sumAmounts (donations : list Donation.t) : num :=
  fold_left (fun sum d => nadd sum (Donation.amount d)) donations zero.

(** The value of an optional contact field in the earliest donation that
    carries a non-empty one. *)
Definition firstCarried (field : Donation.t -> option string)
    (donations : list Donation.t) : option string :=
  head (omap (fun d => if DataParser.truthy (field d) then field d else None)
             donations).

(** The synonyms of the fields selected by [select]. *)
Definition patternsOf (select : Field -> bool) : list string :=
  flat_map (fun entry => if select (fst entry) then snd entry else [])
           DataParser.COMMON_FIELD_MAPPINGS.

(** A header that matches a synonym of [firstName], exactly or by
    containment in either direction. *)
Definition firstNameLike (key : string) : bool :=
  DataParser.partially_matches key
    (patternsOf (fun f => match f with FirstName => true | _ => false end)).

(** A header that matches a synonym of [lastName], or that the detection
    by content takes for a last name. *)
Definition lastNameLike (key : string) : bool :=
  DataParser.partially_matches key
    (patternsOf (fun f => match f with LastName => true | _ => false end))
  || includes key "last" || includes key "surname".

Definition sameField (f g : Field) : bool :=
  match f, g with
  | FirstName, FirstName | LastName, LastName | Amount, Amount
  | DateField, DateField | MonthField, MonthField | Email, Email
  | Phone, Phone => true
  | _, _ => false
  end.

(** The synonyms of one field, in the order of [COMMON_FIELD_MAPPINGS]. *)
Definition synonyms (f : Field) : list string := patternsOf (sameField f).


(** A string that does not start with white space. *)
Definition starts_clean (s : string) : Prop :=
  match s with
  | EmptyString => True
  | String c _ => is_space c = false
  end.

(** All the characters of a string pass a test. *)
Fixpoint all_chars (p : ascii -> bool) (s : string) : bool :=
  match s with
  | EmptyString => true
  | String c r => p c && all_chars p r
  end.

(** A key made of digits only.  The keys that a JavaScript object
    enumerates first, whatever the order of insertion, are of this kind. *)
Definition digits_only (key : string) : bool :=
  negb (is_empty key) && all_chars is_digit key.

(** A word without digit, not empty; patterns that are such words, as
    they stand and without their non-word characters. *)
Definition wordy (pattern : string) : bool :=
  negb (is_empty pattern) && all_chars (fun c => negb (is_digit c)) pattern.

Definition wordy_patterns (patterns : list string) : bool :=
  forallb (fun pattern => wordy pattern && wordy (strip_nonword pattern))
          patterns.

(** The entries whose key is not made of digits only. *)
Definition lettered (entries : RawDataRow) : RawDataRow :=
  List.filter (fun entry => negb (digits_only (fst entry))) entries.

(** [mapFields] from the normalized row on. *)
Definition mapFrom (normalizedRow : RawDataRow) : Mapped.t :=
  let mapped0 :=
    fold_left (DataParser.mapField normalizedRow)
      DataParser.COMMON_FIELD_MAPPINGS Mapped.empty in
  let mapped1 :=
    if negb (DataParser.truthy (Mapped.firstName mapped0))
       || negb (DataParser.truthy (Mapped.lastName mapped0))
    then fold_left DataParser.detectNames normalizedRow mapped0
    else mapped0 in
  let mapped2 :=
    if negb (DataParser.truthy (Mapped.amount mapped1))
    then fold_left DataParser.detectAmount normalizedRow mapped1
    else mapped1 in
  if negb (DataParser.truthy (Mapped.firstName mapped2))
     && negb (DataParser.truthy (Mapped.lastName mapped2))
  then fold_left DataParser.detectFullName normalizedRow mapped2
  else mapped2.

(** The grouping key read off the names of a donor. *)
Definition nameKey (donor : DonorData.t) : string :=
  toLowerCase (DonorData.firstName donor) +:+ "_"
  +:+ toLowerCase (DonorData.lastName donor).

(** The donations that have a given grouping key, in their order. *)
Definition ownedBy (key : string) (donations : list Donation.t)
    : list Donation.t :=
  List.filter (fun d => String.eqb (DataParser.donorKey d) key) donations.

(** The sum of the donation counts of a list of donors. *)
Definition countDonations (donors : list DonorData.t) : nat :=
  list_sum (map DonorData.donationCount donors).

(** The donations of the donors in the order in which the analytics visit
    them, each with the identifier of the donor that owns it. *)
Definition gifts (donors : list DonorData.t) : list (string * Donation.t) :=
  flat_map
    (fun donor =>
       map (fun d => (DonorData.id donor, d)) (DonorData.donations donor))
    donors.



(** The order on pairs of a year and a month number. *)
Definition keyBefore (a b : Z * Z) : Prop :=
  (fst a < fst b \/ (fst a = fst b /\ snd a < snd b))%Z.


(** [new Date(d.getFullYear(), d.getMonth(), 1)]. *)
Definition monthStart (d : Date) : Date :=
  newDate (getFullYear d) (index (getMonth d)).

(** The gift is dated in the month that starts at [target]. *)
Definition givenIn (target : Date) (gift : string * Donation.t) : bool :=
  same_time (monthStart (Donation.date (snd gift))) target.

(** The identifiers of the donors with a gift in the month that starts at
    [target]. *)
Definition giversIn (target : Date) (donors : list DonorData.t) : gset string :=
  list_to_set (map fst (List.filter (givenIn target) (gifts donors))).

(** The number of the month of a date, counted in months, with the years
    0 to 99 read as 1900 to 1999. *)
Definition serialMonth (d : Date) : Z :=
  (if (0 <=? getFullYear d) && (getFullYear d <=? 99)
   then 1900 + getFullYear d else getFullYear d) * 12
  + index (getMonth d).

(** A date outside the years 0 to 99. *)
Definition fourDigitYear (d : Date) : Prop :=
  getFullYear d < 0 \/ 99 < getFullYear d.

















End Stated.

(** ** Sample data for the worked examples *)

Module Samples.

Local Open Scope string_scope.

(** A run-time in which no date string parses; identifiers are numbered. *)
Definition runtime : Runtime.t :=
  Runtime.mk (fun n => "id" +:+ pretty n) (fun _ _ => None) (fun _ => None)
    (mkDate 2025 Mar 1000).

Definition gift (first last : string) (amount : Z) (date : Date)
    (email : option string) : Donation.t :=
  Donation.mk "" first last (of_Z amount) date
    (format_MMMM_yyyy date) (getFullYear date) email None "".

(** Two gifts of one donor in August 2024; only the second one carries
    an e-mail address. *)
Definition twoGifts : list Donation.t :=
  [ gift "John" "Smith" 100 (mkDate 2024 Aug 0) None;
    gift "John" "Smith" 50 (mkDate 2024 Aug 86400000) (Some "john@example.org") ].

Definition occasionalDonors : list DonorData.t :=
  fst (DataParser.groupByDonor runtime twoGifts 0).

(** The donor the two gifts are grouped into. *)
Definition johnSmith : DonorData.t :=
  hd (DataParser.newDonor "" (gift "" "" 0 (mkDate 0 Jan 0) None))
     occasionalDonors.

(** One donor who gave in August and in September 2024 and one who gave
    in September only. *)
Definition twoMonths : list DonorData.t :=
  fst (DataParser.groupByDonor runtime
         [ gift "John" "Smith" 100 (mkDate 2024 Aug 0) None;
           gift "Ann" "Lee" 30 (mkDate 2024 Sep 5000) None;
           gift "John" "Smith" 50 (mkDate 2024 Sep 86400000) None ] 0).

(** An indicator that goes from 100 to 103 over six months. *)
Definition risingSeries : list EconomicDataPoint.t :=
  map (fun v => EconomicDataPoint.mk (mkDate 2023 Jan 0) (of_Z v) "Index")
      [100; 100; 100; 103; 103; 103].

(** Three months with the same total. *)
Definition flatTrends : list MonthlyTrend.t :=
  [ MonthlyTrend.mk "Jan 2024" 2024 (of_Z 100) 1 (of_Z 100);
    MonthlyTrend.mk "Feb 2024" 2024 (of_Z 100) 1 (of_Z 100);
    MonthlyTrend.mk "Mar 2024" 2024 (of_Z 100) 1 (of_Z 100) ].


(** A row with a name and an amount but neither a date nor a month. *)
Definition undatedRow : RawDataRow :=
  [ ("First Name", "John"); ("Last Name", "Smith"); ("Amount", "$100.00") ].

(** A row whose only name column is headed [Name]. *)
Definition fullNameRow : RawDataRow :=
  [ ("Name", "John Smith"); ("Amount", "$100.00") ].

End Samples.

(** * Properties *)

(** ** Retention *)

Section Retention.

Import DonorAnalytics.

Lemma allDonationDates_nil donors :
  allDonationDates donors = [] <->
  flat_map DonorData.donations donors = [].
Proof.
  unfold allDonationDates.
  induction donors as [|donor donors IH]; simpl; [tauto|].
  destruct (DonorData.donations donor) as [|g gs]; simpl; [exact IH|].
  split; discriminate.
Qed.

Lemma frequency_counts_add donors :
  (length (List.filter (has_frequency [frequent; regular]) donors)
   + length (List.filter (has_frequency [occasional]) donors))%nat
  = length (List.filter (has_frequency [frequent; regular; occasional]) donors).
Proof.
  induction donors as [|donor donors IH]; [reflexivity|].
  cbn [List.filter].
  destruct (has_frequency [frequent; regular] donor) eqn:E1,
           (has_frequency [occasional] donor) eqn:E2,
           (has_frequency [frequent; regular; occasional] donor) eqn:E3;
    cbn [length]; try lia; exfalso; revert E1 E2 E3;
    unfold has_frequency; cbn;
    destruct (DonorData.donationFrequency donor); discriminate.
Qed.

(** C3, as the specification words it, fails: a single donor classified
    occasional, both of whose gifts fall in the same month, puts the
    calculator in fallback mode and is counted as returning, although
    no donor is classified frequent or regular. *)
Lemma fallback_returning_counterexample :
  fallbackMode Samples.occasionalDonors = true /\
  length (List.filter (has_frequency [frequent; regular])
                      Samples.occasionalDonors) = 0%nat /\
  RetentionData.returningDonors (calculateRetention Samples.occasionalDonors)
  = 1%nat.
Proof. vm_compute. auto. Qed.

(** C3, amended: in fallback mode [returningDonors] is the number of
    donors classified frequent, regular or occasional, [newDonors] is the
    number of donors classified one-time, and [retentionRate] is
    [returningDonors] divided by the number of donors (0 without donors). *)
Theorem fallback_retention donors :
  fallbackMode donors = true ->
  let result := calculateRetention donors in
  let returning :=
    length (List.filter (has_frequency [frequent; regular; occasional]) donors) in
  RetentionData.returningDonors result = returning /\
  RetentionData.newDonors result
  = length (List.filter (has_frequency [one_time]) donors) /\
  RetentionData.retentionRate result
  = if (0 <? length donors)%nat
    then ndiv (of_nat returning) (of_nat (length donors))
    else zero.
Proof.
  unfold fallbackMode, calculateRetention.
  destruct (referenceMonths donors) as [[currentMonth lastMonth]|];
    [|discriminate].
  intros ->. cbn zeta. rewrite frequency_counts_add. cbn. auto.
Qed.

Lemma fallback_retention_witness :
  fallbackMode Samples.occasionalDonors = true /\
  let result := calculateRetention Samples.occasionalDonors in
  RetentionData.returningDonors result = 1%nat /\
  RetentionData.newDonors result = 0%nat /\
  RetentionData.retentionRate result = ndiv (of_nat 1) (of_nat 1).
Proof.
  split; [reflexivity|].
  exact (fallback_retention Samples.occasionalDonors eq_refl).
Defined.

(** C4, as the specification words it, fails on a list without donation:
    the calculator returns a retention rate of 0 and a churn rate of 0,
    not of 1. *)
Lemma churn_counterexample :
  let result := calculateRetention [] in
  ~ num_eq (RetentionData.churnRate result)
           (nsub one (RetentionData.retentionRate result)).
Proof. vm_compute. discriminate. Qed.

(** C4, amended: as soon as the donors hold a donation, the churn rate
    is 1 minus the retention rate; without any donation the four fields
    of the result are 0. *)
Theorem churn_complement donors :
  (flat_map DonorData.donations donors <> [] ->
   RetentionData.churnRate (calculateRetention donors)
   = nsub one (RetentionData.retentionRate (calculateRetention donors))) /\
  (flat_map DonorData.donations donors = [] ->
   calculateRetention donors = RetentionData.mk 0 0 zero zero).
Proof.
  unfold calculateRetention, referenceMonths.
  rewrite <- allDonationDates_nil.
  destruct (allDonationDates donors) as [|d ds]; split; try congruence.
  intros _. cbn zeta.
  destruct (limitedMonthlyData _ _); reflexivity.
Qed.

Lemma churn_complement_witness :
  flat_map DonorData.donations Samples.occasionalDonors <> [] /\
  RetentionData.churnRate (calculateRetention Samples.occasionalDonors)
  = nsub one (RetentionData.retentionRate
                (calculateRetention Samples.occasionalDonors)).
Proof.
  assert (H : flat_map DonorData.donations Samples.occasionalDonors <> [])
    by (vm_compute; discriminate).
  split; [exact H|].
  exact (proj1 (churn_complement Samples.occasionalDonors) H).
Defined.

End Retention.

(** ** Division by zero in the analytics *)

Section ZeroDivisors.

Import DonorAnalytics.

(** C5: on three months with the same total the forecaster divides 0 by
    0 when it computes R squared, and the confidence of both predictions
    is [NaN] rather than 0: [Math.max] and [Math.min] let [NaN] through. *)
Theorem forecast_flat_confidence :
  Prediction.confidence
    (ForecastData.nextMonth (generateForecast Samples.flatTrends)) = NaN /\
  Prediction.confidence
    (ForecastData.nextQuarter (generateForecast Samples.flatTrends)) = NaN.
Proof. vm_compute. auto. Qed.

(** C6: without donors [analyzeData] divides a total of 0 by a count of
    0, and the average donation it returns is [NaN] rather than 0. *)
Theorem analyzeData_no_donor_average :
  AnalysisResult.donationCount (analyzeData []) = 0%nat /\
  AnalysisResult.averageDonation (analyzeData []) = NaN.
Proof. vm_compute. auto. Qed.

End ZeroDivisors.

(** ** The donor aggregator *)

Section Grouping.

Import DataParser Stated.

Lemma before_irrefl d : before d d = false.
Proof.
  unfold before. rewrite !Z.ltb_irrefl, !Z.eqb_refl. reflexivity.
Qed.

(** [le a b] says that [a] is before [b] or at the same time. *)
Lemma le_iff a b :
  JSDate.le a b <-> before a b = true \/ same_time a b = true.
Proof.
  unfold JSDate.le, before, same_time.
  repeat match goal with
         | |- context [Z.ltb ?x ?y] => destruct (Z.ltb_spec x y)
         | |- context [Z.eqb ?x ?y] => destruct (Z.eqb_spec x y)
         end; cbn; try lia; intuition (try discriminate; try lia).
Qed.

Lemma Assoc_set_In {K V : Type} (eqb : K -> K -> bool) (m : list (K * V))
    k v entry :
  In entry (Assoc.set eqb m k v) -> entry = (k, v) \/ In entry m.
Proof.
  induction m as [|[k0 v0] m IH]; cbn.
  - intros [<-|[]]. now left.
  - destruct (eqb k0 k); cbn; intros [<-|H]; auto.
    destruct (IH H); auto.
Qed.

Lemma Assoc_get_In {K V : Type} (eqb : K -> K -> bool) (m : list (K * V))
    k v :
  Assoc.get eqb m k = Some v -> exists k0, In (k0, v) m.
Proof.
  induction m as [|[k0 v0] m IH]; cbn; [discriminate|].
  destruct (eqb k0 k).
  - intros [= <-]. eauto.
  - intros H. destruct (IH H) as [k1 ?]. eauto.
Qed.

(** What holds of every donor of the map between two iterations. *)
Record consistent (donor : DonorData.t) : Prop := mkConsistent
  { total_is_sum :
      DonorData.totalAmount donor = sumAmounts (DonorData.donations donor);
    count_is_length :
      DonorData.donationCount donor = length (DonorData.donations donor);
    first_le_last :
      JSDate.le (DonorData.firstDonation donor) (DonorData.lastDonation donor);
    seeded_by_first :
      exists first rest,
        DonorData.donations donor = first :: rest /\
        DonorData.email donor = Donation.email first /\
        DonorData.phone donor = Donation.phone first }.

Lemma sumAmounts_snoc donations d :
  sumAmounts (donations ++ [d]) = nadd (sumAmounts donations) (Donation.amount d).
Proof. unfold sumAmounts. rewrite fold_left_app. reflexivity. Qed.

Lemma bounds_extended first last d :
  JSDate.le first last ->
  JSDate.le (if before d first then d else first)
            (if after d last then d else last).
Proof.
  unfold JSDate.le, after. intros H.
  destruct (before d first) eqn:E1, (before last d) eqn:E2;
    auto using before_irrefl.
Qed.

Ltac project_donor :=
  cbn [DonorData.totalAmount DonorData.donations DonorData.donationCount
       DonorData.firstDonation DonorData.lastDonation DonorData.email
       DonorData.phone DonorData.id].

Lemma addDonation_consistent donor donation :
  consistent donor -> consistent (addDonation donor donation).
Proof.
  intros [Hsum Hcount Hle (first & rest & Hd & Hemail & Hphone)].
  split; unfold addDonation; project_donor.
  - rewrite sumAmounts_snoc, Hsum. reflexivity.
  - rewrite length_app, Hcount. cbn. lia.
  - now apply bounds_extended.
  - exists first, (rest ++ [Donation.with_donorId donation (DonorData.id donor)]).
    rewrite Hd. auto.
Qed.

Lemma newDonor_consistent donorId donation :
  consistent (addDonation (newDonor donorId donation) donation).
Proof.
  split; cbn.
  - reflexivity.
  - reflexivity.
  - unfold JSDate.le, after. rewrite !before_irrefl. reflexivity.
  - eexists _, []. split; [reflexivity|]. cbn. auto.
Qed.

Definition all_consistent (donorMap : DonorMap) : Prop :=
  Forall (fun entry => consistent (snd entry)) donorMap.

Lemma groupStep_consistent rt donorMap next donation :
  all_consistent donorMap ->
  all_consistent (fst (groupStep rt (donorMap, next) donation)).
Proof.
  unfold all_consistent. rewrite !List.Forall_forall. intros Hall entry.
  cbn. destruct (Assoc.get _ donorMap _) as [donor|] eqn:Hget; cbn;
    intros Hin; apply Assoc_set_In in Hin as [->|Hin]; auto; cbn.
  - apply addDonation_consistent.
    apply Assoc_get_In in Hget as [k0 Hk0]. exact (Hall _ Hk0).
  - apply newDonor_consistent.
Qed.

Lemma grouping_consistent rt donations state :
  all_consistent (fst state) ->
  all_consistent (fst (fold_left (groupStep rt) donations state)).
Proof.
  revert state. induction donations as [|d donations IH]; intros [m n] H;
    cbn [fold_left]; [exact H|].
  apply IH. now apply groupStep_consistent.
Qed.

(** Every donor returned is the derived form of a consistent donor. *)
Lemma grouped_donor rt donations next donor :
  In donor (fst (groupByDonor rt donations next)) ->
  exists raw, consistent raw /\ donor = derive raw.
Proof.
  unfold groupByDonor.
  pose proof (grouping_consistent rt donations ([], next) (List.Forall_nil _)) as H.
  destruct (fold_left _ donations _) as [donorMap next1]. cbn in *.
  rewrite in_map_iff. intros ([key raw] & <- & Hin).
  unfold all_consistent in H. rewrite List.Forall_forall in H.
  exists raw. split; [exact (H _ Hin) | reflexivity].
Qed.

(** C1: every donor produced by [groupByDonor] has a total equal to the
    sum of the amounts of its donations, a count equal to their number,
    an average equal to the total divided by the count, a first donation
    date not after the last one, and the frequency that the thresholds
    1, 2 to 3, 4 to 6, 7 and more give for its count. *)
Theorem grouped_donor_invariants rt donations next donor :
  In donor (fst (groupByDonor rt donations next)) ->
  let count := DonorData.donationCount donor in
  DonorData.totalAmount donor = sumAmounts (DonorData.donations donor) /\
  count = length (DonorData.donations donor) /\
  DonorData.averageDonation donor
  = ndiv (DonorData.totalAmount donor) (of_nat count) /\
  JSDate.le (DonorData.firstDonation donor) (DonorData.lastDonation donor) /\
  (1 <= count)%nat /\
  (count = 1%nat -> DonorData.donationFrequency donor = one_time) /\
  ((2 <= count <= 3)%nat -> DonorData.donationFrequency donor = occasional) /\
  ((4 <= count <= 6)%nat -> DonorData.donationFrequency donor = regular) /\
  ((7 <= count)%nat -> DonorData.donationFrequency donor = frequent).
Proof.
  intros Hin.
  destruct (grouped_donor _ _ _ _ Hin)
    as (raw & [Hsum Hcount Hle (first & rest & Hd & _)] & ->).
  unfold derive; project_donor;
    cbn [DonorData.averageDonation DonorData.donationFrequency].
  rewrite Hd in Hcount. cbn [length] in Hcount.
  unfold calculateDonationFrequency.
  split; [exact Hsum|]. split; [rewrite Hd; exact Hcount|].
  split; [reflexivity|]. split; [exact Hle|]. split; [lia|].
  destruct (Nat.eqb_spec (DonorData.donationCount raw) 1),
           (Nat.leb_spec (DonorData.donationCount raw) 3),
           (Nat.leb_spec (DonorData.donationCount raw) 6);
    repeat split; intros; try reflexivity; lia.
Qed.

Lemma grouped_donor_invariants_witness :
  In Samples.johnSmith
     (fst (groupByDonor Samples.runtime Samples.twoGifts 0)) /\
  DonorData.totalAmount Samples.johnSmith
  = sumAmounts (DonorData.donations Samples.johnSmith) /\
  DonorData.donationCount Samples.johnSmith = 2%nat /\
  DonorData.donationFrequency Samples.johnSmith = occasional.
Proof.
  assert (H : In Samples.johnSmith
                (fst (groupByDonor Samples.runtime Samples.twoGifts 0)))
    by (left; reflexivity).
  split; [exact H|].
  destruct (grouped_donor_invariants _ _ _ _ H)
    as (Hsum & _ & _ & _ & _ & _ & Hocc & _).
  split; [exact Hsum|]. split; [reflexivity|].
  apply Hocc. vm_compute. split; repeat constructor.
Defined.

(** C9, as the specification words it, fails: the donor of the two
    sample gifts has no e-mail address, although its second donation
    carries one. *)
Lemma contact_counterexample :
  In Samples.johnSmith
     (fst (groupByDonor Samples.runtime Samples.twoGifts 0)) /\
  firstCarried Donation.email (DonorData.donations Samples.johnSmith)
  = Some "john@example.org"%string /\
  DonorData.email Samples.johnSmith = None.
Proof. vm_compute. auto. Qed.

(** C9, amended: the contact fields of a donor produced by grouping are
    those of its first donation, present or not. *)
Theorem contact_from_first_donation rt donations next donor :
  In donor (fst (groupByDonor rt donations next)) ->
  exists first rest,
    DonorData.donations donor = first :: rest /\
    DonorData.email donor = Donation.email first /\
    DonorData.phone donor = Donation.phone first.
Proof.
  intros Hin.
  destruct (grouped_donor _ _ _ _ Hin) as (raw & [_ _ _ Hseed] & ->).
  exact Hseed.
Qed.

Lemma contact_from_first_donation_witness :
  In Samples.johnSmith
     (fst (groupByDonor Samples.runtime Samples.twoGifts 0)) /\
  exists first rest,
    DonorData.donations Samples.johnSmith = first :: rest /\
    DonorData.email Samples.johnSmith = Donation.email first /\
    DonorData.phone Samples.johnSmith = Donation.phone first.
Proof.
  assert (H : In Samples.johnSmith
                (fst (groupByDonor Samples.runtime Samples.twoGifts 0)))
    by (left; reflexivity).
  split; [exact H|].
  exact (contact_from_first_donation _ _ _ _ H).
Defined.

End Grouping.

(** ** The Pearson coefficient *)

Section Pearson.

Import Correlation Stated.

Local Open Scope R_scope.


























End Pearson.

#[local] Set Warnings "-clear-no-such-hyp".

(** ** Finite numbers *)

Section FiniteNumbers.

Local Open Scope Q_scope.











End FiniteNumbers.

(** ** The range and the symmetry of the Pearson coefficient *)

Section PearsonRange.

Import Correlation Stated.

Local Open Scope R_scope.











End PearsonRange.

(** ** Maps in insertion order *)

Section AssocFacts.

Context {K V : Type} (eqb : K -> K -> bool).
Context (eqb_spec : forall a b, reflect (a = b) (eqb a b)).

Implicit Types (m : list (K * V)) (k : K) (v : V).

Lemma assoc_get_present m k v : Assoc.get eqb m k = Some v -> In (k, v) m.
Proof.
  induction m as [|[k0 v0] m IH]; cbn; [discriminate|].
  destruct (eqb_spec k0 k) as [->|Hne].
  - intros [= ->]. now left.
  - intros H. right. auto.
Qed.

Lemma assoc_get_missing m k :
  Assoc.get eqb m k = None <-> ~ In k (map fst m).
Proof.
  induction m as [|[k0 v0] m IH]; cbn; [tauto|].
  destruct (eqb_spec k0 k) as [->|Hne].
  - split; [discriminate | tauto].
  - rewrite IH. tauto.
Qed.

Lemma assoc_set_keys m k v k' :
  In k' (map fst (Assoc.set eqb m k v)) <-> k' = k \/ In k' (map fst m).
Proof.
  induction m as [|[k0 v0] m IH]; cbn.
  - intuition congruence.
  - destruct (eqb_spec k0 k) as [->|Hne]; cbn.
    + intuition congruence.
    + rewrite IH. intuition congruence.
Qed.

Lemma assoc_set_distinct m k v :
  List.NoDup (map fst m) -> List.NoDup (map fst (Assoc.set eqb m k v)).
Proof.
  induction m as [|[k0 v0] m IH]; cbn; intros Hm.
  - constructor; [intros [] | constructor].
  - apply List.NoDup_cons_iff in Hm as [Hk0 Hm].
    destruct (eqb_spec k0 k) as [->|Hne]; cbn; apply List.NoDup_cons_iff.
    + auto.
    + split; [|auto]. rewrite assoc_set_keys. intuition congruence.
Qed.

(** The entries after [set]: the new entry, and the entries of the other
    keys. *)
Lemma assoc_set_entries m k v k' v' :
  List.NoDup (map fst m) ->
  In (k', v') (Assoc.set eqb m k v) ->
  (k' = k /\ v' = v) \/ (k' <> k /\ In (k', v') m).
Proof.
  induction m as [|[k0 v0] m IH]; cbn; intros Hm.
  - intros [[= <- <-]|[]]. now left.
  - apply List.NoDup_cons_iff in Hm as [Hk0 Hm].
    destruct (eqb_spec k0 k) as [->|Hne]; cbn.
    + intros [[= <- <-]|Hin]; [now left|]. right. split; [|now right].
      intros ->. apply Hk0. apply in_map_iff. now exists (k, v').
    + intros [[= <- <-]|Hin]; [right; split; [exact Hne | now left]|].
      destruct (IH Hm Hin) as [?|[? ?]]; [now left|]. right. split; auto.
Qed.

Lemma assoc_get_unique m k v :
  List.NoDup (map fst m) -> In (k, v) m -> Assoc.get eqb m k = Some v.
Proof.
  induction m as [|[k0 v0] m IH]; cbn; [tauto|].
  intros Hm [[= -> ->]|Hin].
  - now destruct (eqb_spec k k).
  - apply List.NoDup_cons_iff in Hm as [Hk0 Hm].
    destruct (eqb_spec k0 k) as [->|Hne]; [|auto].
    exfalso. apply Hk0. apply in_map_iff. now exists (k, v).
Qed.

Lemma assoc_unique_value m k v v' :
  List.NoDup (map fst m) -> In (k, v) m -> In (k, v') m -> v = v'.
Proof.
  intros Hm Hv Hv'.
  pose proof (assoc_get_unique m k v Hm Hv) as H.
  rewrite (assoc_get_unique m k v' Hm Hv') in H. congruence.
Qed.



Lemma assoc_set_sum (f : V -> nat) m k v :
  (list_sum (map (fun e => f (snd e)) (Assoc.set eqb m k v))
   + match Assoc.get eqb m k with Some old => f old | None => 0 end
   = list_sum (map (fun e => f (snd e)) m) + f v)%nat.
Proof.
  unfold list_sum.
  induction m as [|[k0 v0] m IH]; cbn; [lia|].
  destruct (eqb_spec k0 k) as [->|Hne]; cbn; lia.
Qed.

End AssocFacts.

(** ** Sorting *)

Section SortFacts.

Context {A : Type} (later : A -> A -> bool).




(** The comparison follows a relation [R] that is transitive on the
    elements that satisfy [P]. *)
Context (P : A -> Prop) (R : A -> A -> Prop).
Context (R_trans : forall a b c, P a -> P b -> P c -> R a b -> R b c -> R a c).
Context (later_false : forall a b, P a -> P b -> later a b = false -> R a b).
Context (later_true : forall a b, P a -> P b -> later a b = true -> R b a).



End SortFacts.

(** ** Normalized headers *)

Section Headers.

Import DataParser Stated.

Local Open Scope string_scope.

Ltac each_char c :=
  destruct c as [[] [] [] [] [] [] [] []]; vm_compute; try reflexivity;
  try discriminate.

Lemma lower_char_not_upper c : is_upper (lower_char c) = false.
Proof. each_char c. Qed.

Lemma word_not_space c : is_word c = true -> is_space c = false.
Proof. each_char c. Qed.

Lemma lower_char_fixed c : is_upper c = false -> lower_char c = c.
Proof. unfold lower_char. now intros ->. Qed.

Lemma all_chars_and p q s :
  all_chars (fun c => p c && q c) s = all_chars p s && all_chars q s.
Proof.
  induction s as [|c s IH]; cbn [all_chars]; [reflexivity|].
  rewrite IH. destruct (p c), (q c), (all_chars p s); reflexivity.
Qed.

Lemma toLowerCase_no_upper s :
  all_chars (fun c => negb (is_upper c)) (toLowerCase s) = true.
Proof.
  induction s as [|c s IH]; cbn [toLowerCase all_chars]; [reflexivity|].
  now rewrite lower_char_not_upper, IH.
Qed.

Lemma collapse_spaces_all p in_run s :
  p "_"%char = true -> all_chars p s = true ->
  all_chars p (collapse_spaces in_run s) = true.
Proof.
  intros Hp. revert in_run.
  induction s as [|c s IH]; intros in_run; cbn [collapse_spaces all_chars];
    [reflexivity|].
  intros [Hc Hs]%andb_true_iff.
  destruct (is_space c); [destruct in_run|]; cbn [all_chars];
    rewrite ?Hp, ?Hc; cbn [andb]; auto.
Qed.

Lemma strip_nonword_all p s :
  all_chars p s = true -> all_chars p (strip_nonword s) = true.
Proof.
  induction s as [|c s IH]; cbn [strip_nonword all_chars]; [reflexivity|].
  intros [Hc Hs]%andb_true_iff.
  destruct (is_word c); cbn [all_chars]; rewrite ?Hc; cbn [andb]; auto.
Qed.

Lemma strip_nonword_words s : all_chars is_word (strip_nonword s) = true.
Proof.
  induction s as [|c s IH]; cbn [strip_nonword all_chars]; [reflexivity|].
  destruct (is_word c) eqn:Hc; cbn [all_chars]; rewrite ?Hc; cbn [andb]; auto.
Qed.

Lemma toLowerCase_fixed s :
  all_chars (fun c => negb (is_upper c)) s = true -> toLowerCase s = s.
Proof.
  induction s as [|c s IH]; cbn [toLowerCase all_chars]; [reflexivity|].
  intros [Hc Hs]%andb_true_iff. apply negb_true_iff in Hc.
  now rewrite lower_char_fixed, IH.
Qed.

Lemma collapse_spaces_fixed s :
  all_chars is_word s = true -> collapse_spaces false s = s.
Proof.
  induction s as [|c s IH]; cbn [collapse_spaces all_chars]; [reflexivity|].
  intros [Hc Hs]%andb_true_iff.
  now rewrite (word_not_space c Hc), IH.
Qed.

Lemma strip_nonword_fixed s :
  all_chars is_word s = true -> strip_nonword s = s.
Proof.
  induction s as [|c s IH]; cbn [strip_nonword all_chars]; [reflexivity|].
  intros [Hc Hs]%andb_true_iff. now rewrite Hc, IH.
Qed.

(** A normalized header is made of lower-case letters, digits and
    underscores, and normalizing it again does not change it. *)
Theorem normalizeKey_idempotent key :
  all_chars (fun c => is_word c && negb (is_upper c)) (normalizeKey key) = true /\
  normalizeKey (normalizeKey key) = normalizeKey key.
Proof.
  assert (Hwords : all_chars is_word (normalizeKey key) = true)
    by apply strip_nonword_words.
  assert (Hlower : all_chars (fun c => negb (is_upper c)) (normalizeKey key)
                   = true).
  { apply strip_nonword_all, collapse_spaces_all; [reflexivity|].
    apply toLowerCase_no_upper. }
  split.
  - now rewrite all_chars_and, Hwords, Hlower.
  - unfold normalizeKey at 1.
    rewrite (toLowerCase_fixed _ Hlower), (collapse_spaces_fixed _ Hwords).
    now apply strip_nonword_fixed.
Qed.

End Headers.

(** ** The field mapper and the record builder *)

Section FieldMapping.

Import DataParser Stated.

Local Open Scope string_scope.

Lemma trim_truthy value :
  JSString.truthy (trim value) = true -> JSString.truthy value = true.
Proof. destruct value; [discriminate | reflexivity]. Qed.

Lemma fold_left_preserves {A B : Type} (P : A -> Prop) (step : A -> B -> A) :
  (forall a b, P a -> P (step a b)) ->
  forall l a, P a -> P (fold_left step l a).
Proof.
  intros Hstep l. induction l as [|b l IH]; intros a Ha; cbn; auto.
Qed.

Lemma set_name_unchanged f v mapped :
  Mapped.name (Mapped.set f v mapped) = Mapped.name mapped.
Proof. destruct f; reflexivity. Qed.

Lemma mapField_name normalizedRow mapped entry :
  Mapped.name (mapField normalizedRow mapped entry) = Mapped.name mapped.
Proof.
  destruct entry as [f patterns]. unfold mapField.
  repeat match goal with
         | |- context [match ?e with Some _ => _ | None => _ end] =>
             destruct e
         end; rewrite ?set_name_unchanged; reflexivity.
Qed.

Lemma detectNames_name mapped entry :
  Mapped.name (detectNames mapped entry) = Mapped.name mapped.
Proof.
  destruct entry as [key value]. unfold detectNames.
  repeat match goal with
         | |- context [if ?b then _ else _] => destruct b
         end; rewrite ?set_name_unchanged; reflexivity.
Qed.

Lemma detectAmount_unchanged mapped entry :
  Mapped.name (detectAmount mapped entry) = Mapped.name mapped /\
  Mapped.firstName (detectAmount mapped entry) = Mapped.firstName mapped /\
  Mapped.lastName (detectAmount mapped entry) = Mapped.lastName mapped.
Proof.
  destruct entry as [key value]. unfold detectAmount.
  destruct (_ && _); auto.
Qed.

Lemma detectAmount_fold entries mapped :
  Mapped.name (fold_left detectAmount entries mapped) = Mapped.name mapped /\
  Mapped.firstName (fold_left detectAmount entries mapped)
  = Mapped.firstName mapped /\
  Mapped.lastName (fold_left detectAmount entries mapped)
  = Mapped.lastName mapped.
Proof.
  revert mapped. induction entries as [|entry entries IH]; intros mapped;
    cbn [fold_left]; [auto|].
  destruct (IH (detectAmount mapped entry)) as (Hn & Hf & Hl).
  rewrite Hn, Hf, Hl. apply detectAmount_unchanged.
Qed.

Lemma detectNames_keeps_firstName mapped entry :
  truthy (Mapped.firstName mapped) = true ->
  Mapped.firstName (detectNames mapped entry) = Mapped.firstName mapped.
Proof.
  intros H. destruct entry as [key value]. unfold detectNames.
  rewrite H. cbn [negb andb].
  repeat match goal with
         | |- context [if ?b then _ else _] => destruct b
         end; reflexivity.
Qed.

Lemma detectNames_fold_keeps entries mapped :
  truthy (Mapped.firstName mapped) = true ->
  Mapped.firstName (fold_left detectNames entries mapped)
  = Mapped.firstName mapped.
Proof.
  revert mapped. induction entries as [|entry entries IH]; intros mapped H;
    cbn [fold_left]; [reflexivity|].
  rewrite IH; rewrite detectNames_keeps_firstName; auto.
Qed.

Lemma detectNames_finds_name mapped key value :
  includes key "name" = true ->
  JSString.truthy (trim value) = true ->
  truthy (Mapped.firstName (detectNames mapped (key, value))) = true.
Proof.
  intros Hkey Hvalue. unfold detectNames. rewrite Hvalue, Hkey.
  destruct (truthy (Mapped.firstName mapped)) eqn:Hfirst; cbn [negb andb orb].
  - destruct (_ && _); assumption.
  - cbn. now apply trim_truthy.
Qed.

Lemma detectNames_fold entries mapped key value :
  In (key, value) entries ->
  includes key "name" = true ->
  JSString.truthy (trim value) = true ->
  truthy (Mapped.firstName (fold_left detectNames entries mapped)) = true.
Proof.
  intros Hin Hkey Hvalue. revert mapped.
  induction entries as [|entry entries IH]; intros mapped; [contradiction|].
  cbn [fold_left]. destruct Hin as [->|Hin]; [|auto].
  rewrite detectNames_fold_keeps; now apply detectNames_finds_name.
Qed.

(** The full-name detection never fires: a column it would take has
    always been taken as first name by the detection that precedes it. *)
Lemma detectFullName_idle entries mapped :
  (forall key value,
      In (key, value) entries ->
      JSString.truthy (trim value) && includes key "name" = false) ->
  fold_left detectFullName entries mapped = mapped.
Proof.
  revert mapped. induction entries as [|[key value] entries IH];
    intros mapped H; cbn [fold_left]; [reflexivity|].
  unfold detectFullName at 2.
  rewrite (H key value (or_introl eq_refl)). cbn [andb].
  apply IH. intros k v Hin. apply H. now right.
Qed.

Lemma mapFields_name_none row :
  Mapped.name (mapFields row) = None.
Proof.
  unfold mapFields.
  set (normalizedRow := normalizeRow row).
  set (mapped0 := fold_left (mapField normalizedRow) COMMON_FIELD_MAPPINGS
                    Mapped.empty).
  assert (H0 : Mapped.name mapped0 = None).
  { unfold mapped0.
    apply (fold_left_preserves (fun m => Mapped.name m = None)); [|reflexivity].
    intros m e Hm. now rewrite mapField_name. }
  set (mapped1 := if negb (truthy (Mapped.firstName mapped0))
                     || negb (truthy (Mapped.lastName mapped0))
                  then fold_left detectNames normalizedRow mapped0
                  else mapped0).
  assert (H1 : Mapped.name mapped1 = None).
  { unfold mapped1. destruct (_ || _); [|exact H0].
    apply (fold_left_preserves (fun m => Mapped.name m = None)); [|exact H0].
    intros m e Hm. now rewrite detectNames_name. }
  set (mapped2 := if negb (truthy (Mapped.amount mapped1))
                  then fold_left detectAmount normalizedRow mapped1
                  else mapped1).
  assert (H2 : Mapped.name mapped2 = None /\
               Mapped.firstName mapped2 = Mapped.firstName mapped1 /\
               Mapped.lastName mapped2 = Mapped.lastName mapped1).
  { unfold mapped2.
    destruct (negb (truthy (Mapped.amount mapped1))); [|auto].
    destruct (detectAmount_fold normalizedRow mapped1) as (Hn & Hf & Hl).
    rewrite Hn, Hf, Hl. auto. }
  destruct H2 as (H2 & Hfirst & Hlast).
  destruct (negb (truthy (Mapped.firstName mapped2))
            && negb (truthy (Mapped.lastName mapped2))) eqn:Hnone;
    [|exact H2].
  rewrite detectFullName_idle; [exact H2|].
  intros key value Hin.
  destruct (JSString.truthy (trim value) && includes key "name") eqn:Hcol;
    [exfalso | reflexivity].
  apply andb_true_iff in Hcol as [Hvalue Hkey].
  apply andb_true_iff in Hnone as [Hnone _].
  rewrite Hfirst in Hnone.
  assert (Hfound : truthy (Mapped.firstName mapped1) = true).
  { unfold mapped1.
    destruct (negb (truthy (Mapped.firstName mapped0))
              || negb (truthy (Mapped.lastName mapped0))) eqn:Hrun.
    - exact (detectNames_fold normalizedRow mapped0 key value Hin Hkey Hvalue).
    - apply orb_false_iff in Hrun as [Hrun _].
      now apply negb_false_iff in Hrun. }
  rewrite Hfound in Hnone. discriminate.
Qed.

Lemma detectFullName_names entries mapped :
  Mapped.firstName (fold_left detectFullName entries mapped)
  = Mapped.firstName mapped /\
  Mapped.lastName (fold_left detectFullName entries mapped)
  = Mapped.lastName mapped.
Proof.
  revert mapped. induction entries as [|[key value] entries IH]; intros mapped;
    cbn [fold_left]; [auto|].
  destruct (IH (detectFullName mapped (key, value))) as (Hf & Hl).
  rewrite Hf, Hl. unfold detectFullName. destruct (_ && _); auto.
Qed.

(** The names after [mapFields] are the names after the detection of the
    name columns by content. *)
Lemma mapFields_names row :
  let normalizedRow := normalizeRow row in
  let mapped0 :=
    fold_left (mapField normalizedRow) COMMON_FIELD_MAPPINGS Mapped.empty in
  let mapped1 :=
    if negb (truthy (Mapped.firstName mapped0))
       || negb (truthy (Mapped.lastName mapped0))
    then fold_left detectNames normalizedRow mapped0
    else mapped0 in
  Mapped.firstName (mapFields row) = Mapped.firstName mapped1 /\
  Mapped.lastName (mapFields row) = Mapped.lastName mapped1.
Proof.
  intros normalizedRow mapped0 mapped1. unfold mapFields.
  fold normalizedRow. fold mapped0. fold mapped1.
  set (mapped2 := if negb (truthy (Mapped.amount mapped1))
                  then fold_left detectAmount normalizedRow mapped1
                  else mapped1).
  assert (H2 : Mapped.firstName mapped2 = Mapped.firstName mapped1 /\
               Mapped.lastName mapped2 = Mapped.lastName mapped1).
  { unfold mapped2.
    destruct (negb (truthy (Mapped.amount mapped1))); [|auto].
    destruct (detectAmount_fold normalizedRow mapped1) as (_ & Hf & Hl). auto. }
  destruct H2 as [Hf Hl].
  destruct (negb (truthy (Mapped.firstName mapped2))
            && negb (truthy (Mapped.lastName mapped2))); [|auto].
  destruct (detectFullName_names normalizedRow mapped2) as [Hf' Hl'].
  rewrite Hf', Hl'. auto.
Qed.

Lemma name_column_gives_firstName row key value :
  In (key, value) (normalizeRow row) ->
  includes key "name" = true ->
  JSString.truthy (trim value) = true ->
  truthy (Mapped.firstName (mapFields row)) = true.
Proof.
  intros Hin Hkey Hvalue.
  destruct (mapFields_names row) as [-> _].
  destruct (negb _ || negb _) eqn:Hrun.
  - exact (detectNames_fold _ _ key value Hin Hkey Hvalue).
  - apply orb_false_iff in Hrun as [Hrun _]. now apply negb_false_iff in Hrun.
Qed.

(** With a truthy first name the record builder does not split a name:
    it trims the mapped names. *)
Lemma buildDonation_keeps_names rt mapped next donation :
  truthy (Mapped.firstName mapped) = true ->
  fst (buildDonation rt mapped next) = Some donation ->
  Donation.firstName donation = trim (or_empty (Mapped.firstName mapped)) /\
  Donation.lastName donation = trim (or_empty (Mapped.lastName mapped)).
Proof.
  intros Hfirst. unfold buildDonation. rewrite Hfirst. cbn [negb andb orb].
  destruct (negb (truthy (Mapped.amount mapped))); [discriminate|].
  destruct (Mapped.firstName mapped) as [first|]; [|discriminate].
  cbn in Hfirst.
  assert (Hor : or_else (Some first) (Some "") = Some first)
    by (unfold or_else; cbn; rewrite Hfirst; reflexivity).
  rewrite Hor. cbn [or_empty]. rewrite Hfirst. cbn [negb andb].
  rewrite Hfirst. cbn [negb andb fst].
  intros [= <-]. cbn [Donation.firstName Donation.lastName].
  split; [reflexivity|].
  unfold or_else. destruct (Mapped.lastName mapped) as [[|c last]|]; reflexivity.
Qed.

(** *** Objects keyed by strings *)

Lemma row_get_present (row : RawDataRow) key value :
  Assoc.get String.eqb row key = Some value -> In (key, value) row.
Proof. apply (assoc_get_present String.eqb String.eqb_spec). Qed.

Lemma normalizeRow_from (row : RawDataRow) (normalized : RawDataRow) :
  List.NoDup (map fst normalized) ->
  List.NoDup (map fst
           (fold_left
              (fun normalizedRow '(key, value) =>
                 Assoc.set String.eqb normalizedRow (normalizeKey key) value)
              row normalized)).
Proof.
  revert normalized. induction row as [|[key value] row IH];
    intros normalized H; cbn [fold_left]; [exact H|].
  apply IH. now apply (assoc_set_distinct String.eqb String.eqb_spec).
Qed.

(** The normalized row has no two entries with the same key. *)
Lemma normalizeRow_NoDup row : List.NoDup (map fst (normalizeRow row)).
Proof. apply normalizeRow_from. constructor. Qed.



(** *** Which column a field takes *)

Lemma firstName_get mapped :
  Mapped.firstName mapped = Mapped.get FirstName mapped.
Proof. reflexivity. Qed.

Lemma get_set_same f v mapped : Mapped.get f (Mapped.set f v mapped) = v.
Proof. destruct f; reflexivity. Qed.

Lemma get_set_other f g v mapped :
  sameField g f = false ->
  Mapped.get g (Mapped.set f v mapped) = Mapped.get g mapped.
Proof. destruct f, g; (discriminate || reflexivity). Qed.

Lemma get_set_name g v mapped :
  Mapped.get g (Mapped.set_name v mapped) = Mapped.get g mapped.
Proof. destruct g; reflexivity. Qed.

Lemma mapField_get_other normalizedRow mapped f patterns g :
  sameField g f = false ->
  Mapped.get g (mapField normalizedRow mapped (f, patterns))
  = Mapped.get g mapped.
Proof.
  intros H. unfold mapField.
  repeat match goal with
         | |- context [match ?e with Some _ => _ | None => _ end] =>
             destruct e
         end; rewrite ?get_set_other by exact H; reflexivity.
Qed.

Lemma mapField_exact normalizedRow mapped f p patterns v :
  Assoc.get String.eqb normalizedRow p = Some v ->
  strip_nonword p = p ->
  JSString.truthy v = true ->
  Mapped.get f (mapField normalizedRow mapped (f, p :: patterns)) = Some v.
Proof.
  intros Hget Hp Hv. unfold mapField. cbn [exactMatch].
  rewrite Hp, Hget. unfold or_else. cbn [truthy]. rewrite Hv.
  rewrite !get_set_same. reflexivity.
Qed.

Lemma detectNames_keeps mapped entry g :
  truthy (Mapped.get g mapped) = true ->
  Mapped.get g (detectNames mapped entry) = Mapped.get g mapped.
Proof.
  intros H. destruct entry as [key value]. unfold detectNames.
  destruct (JSString.truthy (trim value)); [|reflexivity].
  destruct g; cbn [Mapped.get] in *; rewrite ?H; cbn [negb andb];
    repeat match goal with
           | |- context [if ?b then _ else _] => destruct b
           end; reflexivity.
Qed.

Lemma detectAmount_keeps mapped entry g :
  sameField g Amount = false ->
  Mapped.get g (detectAmount mapped entry) = Mapped.get g mapped.
Proof.
  intros H. destruct entry as [key value]. unfold detectAmount.
  destruct (_ && _); [|reflexivity]. now apply get_set_other.
Qed.

Lemma detectFullName_keeps mapped entry g :
  Mapped.get g (detectFullName mapped entry) = Mapped.get g mapped.
Proof.
  destruct entry as [key value]. unfold detectFullName.
  destruct (_ && _); [|reflexivity]. apply get_set_name.
Qed.

(** A field that is truthy after the loop over the synonyms keeps its
    value to the end of [mapFields]. *)
Lemma detections_keep normalizedRow mapped0 g :
  truthy (Mapped.get g mapped0) = true ->
  Mapped.get g
    (let mapped1 :=
       if negb (truthy (Mapped.firstName mapped0))
          || negb (truthy (Mapped.lastName mapped0))
       then fold_left detectNames normalizedRow mapped0
       else mapped0 in
     let mapped2 :=
       if negb (truthy (Mapped.amount mapped1))
       then fold_left detectAmount normalizedRow mapped1
       else mapped1 in
     if negb (truthy (Mapped.firstName mapped2))
        && negb (truthy (Mapped.lastName mapped2))
     then fold_left detectFullName normalizedRow mapped2
     else mapped2)
  = Mapped.get g mapped0.
Proof.
  intros H.
  assert (H1 : forall entries,
             Mapped.get g (fold_left detectNames entries mapped0)
             = Mapped.get g mapped0).
  { intros entries.
    apply (fold_left_preserves
             (fun m => Mapped.get g m = Mapped.get g mapped0)); [|reflexivity].
    intros m e Hm. rewrite detectNames_keeps; rewrite Hm; auto. }
  assert (H2 : forall entries mapped,
             Mapped.get g mapped = Mapped.get g mapped0 ->
             truthy (Mapped.amount mapped) = false ->
             Mapped.get g (fold_left detectAmount entries mapped)
             = Mapped.get g mapped0).
  { intros entries mapped Hm Hamount.
    apply (fold_left_preserves
             (fun m => Mapped.get g m = Mapped.get g mapped0)); [|exact Hm].
    intros m e Hm'. rewrite detectAmount_keeps; [exact Hm'|].
    destruct g; try reflexivity.
    cbn [Mapped.get] in Hm, H. rewrite Hm, H in Hamount. discriminate. }
  assert (H3 : forall entries mapped,
             Mapped.get g mapped = Mapped.get g mapped0 ->
             Mapped.get g (fold_left detectFullName entries mapped)
             = Mapped.get g mapped0).
  { intros entries mapped Hm.
    apply (fold_left_preserves
             (fun m => Mapped.get g m = Mapped.get g mapped0)); [|exact Hm].
    intros m e Hm'. now rewrite detectFullName_keeps. }
  cbv zeta.
  repeat match goal with
         | |- context [if ?b then _ else _] =>
             let E := fresh "E" in destruct b eqn:E
         end;
    repeat first
      [ reflexivity
      | apply H1
      | apply H3
      | apply H2; [|apply negb_true_iff; assumption] ].
Qed.

Lemma mapFields_keeps row g :
  truthy
    (Mapped.get g
       (fold_left (mapField (normalizeRow row)) COMMON_FIELD_MAPPINGS
          Mapped.empty)) = true ->
  Mapped.get g (mapFields row)
  = Mapped.get g
      (fold_left (mapField (normalizeRow row)) COMMON_FIELD_MAPPINGS
         Mapped.empty).
Proof. intros H. unfold mapFields. now apply detections_keep. Qed.

(** A column headed by the first synonym of a field, with a non-empty
    value, is mapped to that field whatever the other columns are. *)
Theorem first_synonym_wins row f v :
  Assoc.get String.eqb (normalizeRow row) (hd "" (synonyms f)) = Some v ->
  JSString.truthy v = true ->
  Mapped.get f (mapFields row) = Some v.
Proof.
  intros Hget Hv.
  assert (H0 : Mapped.get f
                 (fold_left (mapField (normalizeRow row)) COMMON_FIELD_MAPPINGS
                    Mapped.empty) = Some v).
  { unfold COMMON_FIELD_MAPPINGS. cbn [fold_left].
    destruct f; cbn [synonyms patternsOf flat_map COMMON_FIELD_MAPPINGS
                     sameField fst snd app hd] in Hget;
      repeat (rewrite mapField_get_other by reflexivity);
      apply mapField_exact; auto. }
  rewrite mapFields_keeps; rewrite H0; [reflexivity | exact Hv].
Qed.

Lemma first_synonym_wins_witness :
  Mapped.get Amount
    (mapFields [("Gift Total", "12"); ("Amount", "$100.00"); ("Name", "Ann")])
  = Some "$100.00".
Proof.
  apply (first_synonym_wins
           [("Gift Total", "12"); ("Amount", "$100.00"); ("Name", "Ann")]
           Amount "$100.00"); vm_compute; reflexivity.
Defined.

Lemma exactMatch_sound normalizedRow patterns v :
  exactMatch normalizedRow patterns = Some v ->
  exists p, In p patterns /\
            (In (strip_nonword p, v) normalizedRow \/ In (p, v) normalizedRow).
Proof.
  induction patterns as [|p patterns IH]; cbn [exactMatch]; [discriminate|].
  destruct (Assoc.get String.eqb normalizedRow (strip_nonword p)) as [a|] eqn:Ha;
    destruct (Assoc.get String.eqb normalizedRow p) as [b|] eqn:Hb;
    unfold or_else; cbn [truthy].
  - destruct (JSString.truthy a); intros [= <-]; exists p;
      (split; [now left|]); eauto using row_get_present.
  - destruct (JSString.truthy a); [|discriminate].
    intros [= <-]. exists p. split; [now left|]. eauto using row_get_present.
  - intros [= <-]. exists p. split; [now left|]. eauto using row_get_present.
  - intros H. destruct (IH H) as (q & Hq & Hin). exists q. split; [now right|].
    exact Hin.
Qed.

Lemma partialMatch_sound entries patterns v :
  partialMatch entries patterns = Some v ->
  exists key, In (key, v) entries /\ partially_matches key patterns = true.
Proof.
  induction entries as [|[key value] entries IH]; cbn [partialMatch];
    [discriminate|].
  destruct (partially_matches key patterns) eqn:Hkey.
  - intros [= <-]. exists key. split; [now left | exact Hkey].
  - intros H. destruct (IH H) as (k & Hin & Hk). exists k. split; [now right|].
    exact Hk.
Qed.

Lemma partialMatch_none entries patterns key value :
  partialMatch entries patterns = None ->
  In (key, value) entries -> partially_matches key patterns = false.
Proof.
  induction entries as [|[k v] entries IH]; cbn [partialMatch]; [intros _ []|].
  destruct (partially_matches k patterns) eqn:Hk; [discriminate|].
  intros H [[= <- <-]|Hin]; auto.
Qed.

Lemma includes_refl s : includes s s = true.
Proof.
  assert (H : startsWith s s = true).
  { induction s as [|c s IH]; cbn; [reflexivity|].
    now rewrite Ascii.eqb_refl, IH. }
  destruct s; cbn in *; [reflexivity|]. now rewrite H.
Qed.

(** When the only column that matches a synonym of [firstName] holds a
    non-blank value under a header with [name] in it, the loop over the
    synonyms gives this value to [firstName]. *)
Lemma mapField_takes_name normalizedRow key value :
  List.NoDup (map fst normalizedRow) ->
  In (key, value) normalizedRow ->
  includes key "name" = true ->
  (forall key' value',
      In (key', value') normalizedRow -> key' <> key ->
      firstNameLike key' = false) ->
  Mapped.get FirstName
    (mapField normalizedRow Mapped.empty (FirstName, synonyms FirstName))
  = Some value.
Proof.
  intros Hnodup Hin Hkey Hothers.
  assert (Hmine : forall k v, In (k, v) normalizedRow ->
                              firstNameLike k = true -> v = value).
  { intros k v Hk Hlike. destruct (String.eqb_spec k key) as [->|Hne].
    - exact (assoc_unique_value String.eqb String.eqb_spec _ _ _ _ Hnodup Hk Hin).
    - rewrite (Hothers k v Hk Hne) in Hlike. discriminate. }
  unfold mapField.
  destruct (exactMatch normalizedRow (synonyms FirstName)) as [v|] eqn:Hexact.
  - rewrite !get_set_same.
    apply exactMatch_sound in Hexact as (p & Hp & Hfound).
    assert (Hlike : strip_nonword p = p /\ firstNameLike p = true).
    { cbn in Hp.
      repeat (destruct Hp as [<-|Hp]; [split; vm_compute; reflexivity|]).
      contradiction. }
    destruct Hlike as [Hstrip Hlike]. rewrite Hstrip in Hfound.
    f_equal. destruct Hfound as [Hfound|Hfound]; exact (Hmine p v Hfound Hlike).
  - cbn [Mapped.get Mapped.firstName Mapped.empty].
    destruct (partialMatch normalizedRow (synonyms FirstName)) as [v|] eqn:Hpart.
    + cbn [Mapped.set Mapped.firstName].
      apply partialMatch_sound in Hpart as (k & Hk & Hlike).
      f_equal. exact (Hmine k v Hk Hlike).
    + exfalso.
      pose proof (partialMatch_none _ _ _ _ Hpart Hin) as Hnone.
      assert (Hlike : partially_matches key (synonyms FirstName) = true).
      { unfold partially_matches. apply existsb_exists. exists "name".
        split; [cbn; tauto|].
        change (strip_nonword "name") with "name". now rewrite Hkey. }
      congruence.
Qed.

(** What the mapper and the record builder do with a column whose
    normalized header has [name] in it and whose value is not blank:
    [firstName] is truthy, and it is the value of this column when no
    other column matches a synonym of [firstName]; the combined [name]
    field is not produced; the donation built from the row has the mapped
    names, trimmed, and not the halves of a split name. *)
Theorem name_column_mapping row key value :
  In (key, value) (normalizeRow row) ->
  includes key "name" = true ->
  JSString.truthy (trim value) = true ->
  let mapped := mapFields row in
  truthy (Mapped.firstName mapped) = true /\
  ((forall key' value',
       In (key', value') (normalizeRow row) -> key' <> key ->
       firstNameLike key' = false) ->
   Mapped.firstName mapped = Some value) /\
  Mapped.name mapped = None /\
  (forall rt next donation,
      fst (buildDonation rt mapped next) = Some donation ->
      Donation.firstName donation = trim (or_empty (Mapped.firstName mapped)) /\
      Donation.lastName donation = trim (or_empty (Mapped.lastName mapped))).
Proof.
  intros Hin Hkey Hvalue mapped.
  pose proof (name_column_gives_firstName row key value Hin Hkey Hvalue)
    as Hfirst.
  split; [exact Hfirst|]. split; [|split].
  - intros Hothers. unfold mapped. rewrite firstName_get.
    assert (H0 : Mapped.get FirstName
                   (fold_left (mapField (normalizeRow row))
                      COMMON_FIELD_MAPPINGS Mapped.empty) = Some value).
    { unfold COMMON_FIELD_MAPPINGS. cbn [fold_left].
      repeat (rewrite mapField_get_other by reflexivity).
      exact (mapField_takes_name _ key value (normalizeRow_NoDup row)
               Hin Hkey Hothers). }
    rewrite mapFields_keeps; rewrite H0; [reflexivity|].
    cbn [truthy]. now apply trim_truthy.
  - apply mapFields_name_none.
  - intros rt next donation. now apply buildDonation_keeps_names.
Qed.

Lemma name_column_mapping_witness :
  let mapped := mapFields Samples.fullNameRow in
  Mapped.firstName mapped = Some "John Smith" /\
  Mapped.name mapped = None /\
  forall donation,
    fst (buildDonation Samples.runtime mapped 0) = Some donation ->
    Donation.firstName donation = "John Smith" /\
    Donation.lastName donation = "John Smith".
Proof.
  assert (Hrow : normalizeRow Samples.fullNameRow
                 = [("name", "John Smith"); ("amount", "$100.00")])
    by (vm_compute; reflexivity).
  assert (Hin : In ("name", "John Smith") (normalizeRow Samples.fullNameRow))
    by (rewrite Hrow; left; reflexivity).
  assert (Hkey : includes "name" "name" = true) by (vm_compute; reflexivity).
  assert (Hvalue : JSString.truthy (trim "John Smith") = true)
    by (vm_compute; reflexivity).
  destruct (name_column_mapping Samples.fullNameRow "name" "John Smith"
              Hin Hkey Hvalue) as (_ & Hown & Hname & Hbuilt).
  split; [|split; [exact Hname|]].
  - apply Hown. rewrite Hrow.
    intros key' value' [[= <- <-]|[[= <- <-]|[]]] Hne;
      [contradiction | vm_compute; reflexivity].
  - intros donation Hd.
    destruct (Hbuilt Samples.runtime 0%nat donation Hd) as [Hf Hl].
    rewrite Hf, Hl. vm_compute. auto.
Defined.

End FieldMapping.

(** ** Columns with a numeric header *)

Section DigitColumns.

Import DataParser Stated.

Local Open Scope string_scope.

Lemma startsWith_chars p s t :
  startsWith s t = true -> all_chars p s = true -> all_chars p t = true.
Proof.
  revert s. induction t as [|a t IH]; intros [|b s]; cbn; try discriminate;
    try reflexivity.
  intros [Hab Hst]%andb_true_iff [Hb Hs]%andb_true_iff.
  apply Ascii.eqb_eq in Hab. subst b. rewrite Hb. cbn. eauto.
Qed.

(** A part of a string has the characters of that string. *)
Lemma includes_chars p s t :
  includes s t = true -> all_chars p s = true -> all_chars p t = true.
Proof.
  induction s as [|b s IH]; cbn [includes].
  - rewrite orb_false_r. apply startsWith_chars.
  - intros [H|H]%orb_true_iff Hs.
    + exact (startsWith_chars p _ _ H Hs).
    + apply IH; [exact H|]. cbn in Hs. now apply andb_true_iff in Hs.
Qed.

Lemma digits_and_letters s :
  all_chars is_digit s = true ->
  all_chars (fun c => negb (is_digit c)) s = true ->
  s = "".
Proof.
  destruct s as [|c s]; [reflexivity|]. cbn.
  destruct (is_digit c); cbn; discriminate.
Qed.

Lemma digits_apart key pattern :
  digits_only key = true -> wordy pattern = true ->
  includes key pattern = false /\ includes pattern key = false.
Proof.
  unfold digits_only, wordy.
  intros [Hk Hkey]%andb_true_iff [Hp Hpattern]%andb_true_iff. split.
  - destruct (includes key pattern) eqn:H; [|reflexivity].
    pose proof (includes_chars _ _ _ H Hkey) as Hd.
    rewrite (digits_and_letters _ Hd Hpattern) in Hp. discriminate.
  - destruct (includes pattern key) eqn:H; [|reflexivity].
    pose proof (includes_chars _ _ _ H Hpattern) as Hd.
    rewrite (digits_and_letters _ Hkey Hd) in Hk. discriminate.
Qed.

Lemma digits_not_wordy key pattern :
  digits_only key = true -> wordy pattern = true -> String.eqb key pattern = false.
Proof.
  intros Hk Hp. destruct (String.eqb_spec key pattern) as [->|]; [|reflexivity].
  destruct (digits_apart _ _ Hk Hp) as [H _].
  rewrite includes_refl in H. discriminate.
Qed.

Lemma get_lettered (entries : RawDataRow) pattern :
  wordy pattern = true ->
  Assoc.get String.eqb (lettered entries) pattern
  = Assoc.get String.eqb entries pattern.
Proof.
  intros Hp. induction entries as [|[key value] entries IH]; [reflexivity|].
  cbn [lettered List.filter fst Assoc.get].
  destruct (digits_only key) eqn:Hk; cbn [negb Assoc.get].
  - rewrite (digits_not_wordy _ _ Hk Hp). exact IH.
  - fold (lettered entries). now rewrite IH.
Qed.

Lemma exactMatch_lettered entries patterns :
  wordy_patterns patterns = true ->
  exactMatch (lettered entries) patterns = exactMatch entries patterns.
Proof.
  induction patterns as [|pattern patterns IH]; [reflexivity|].
  cbn [wordy_patterns forallb]. fold (wordy_patterns patterns).
  intros [[H1 H2]%andb_true_iff H]%andb_true_iff.
  cbn [exactMatch]. rewrite !get_lettered by assumption. now rewrite IH.
Qed.

Lemma partially_matches_digits key patterns :
  digits_only key = true -> wordy_patterns patterns = true ->
  partially_matches key patterns = false.
Proof.
  intros Hk. unfold partially_matches.
  induction patterns as [|pattern patterns IH]; [reflexivity|].
  cbn [wordy_patterns forallb existsb]. fold (wordy_patterns patterns).
  intros [[H1 H2]%andb_true_iff H]%andb_true_iff.
  destruct (digits_apart _ _ Hk H2) as [-> ->]. cbn [orb]. auto.
Qed.

Lemma partialMatch_lettered entries patterns :
  wordy_patterns patterns = true ->
  partialMatch (lettered entries) patterns = partialMatch entries patterns.
Proof.
  intros Hp. induction entries as [|[key value] entries IH]; [reflexivity|].
  cbn [lettered List.filter fst partialMatch].
  destruct (digits_only key) eqn:Hk; cbn [negb partialMatch].
  - rewrite (partially_matches_digits _ _ Hk Hp). exact IH.
  - fold (lettered entries). now rewrite IH.
Qed.

Lemma mapField_lettered entries mapped field patterns :
  wordy_patterns patterns = true ->
  mapField (lettered entries) mapped (field, patterns)
  = mapField entries mapped (field, patterns).
Proof.
  intros Hp. unfold mapField.
  now rewrite exactMatch_lettered, partialMatch_lettered.
Qed.

Lemma detect_lettered (detect : Mapped.t -> string * string -> Mapped.t)
    entries :
  (forall mapped key value,
      digits_only key = true -> detect mapped (key, value) = mapped) ->
  forall mapped,
    fold_left detect (lettered entries) mapped = fold_left detect entries mapped.
Proof.
  intros Hdetect.
  induction entries as [|[key value] entries IH]; intros mapped;
    [reflexivity|].
  cbn [lettered List.filter fst fold_left].
  destruct (digits_only key) eqn:Hk; cbn [negb fold_left].
  - rewrite (Hdetect _ _ _ Hk). apply IH.
  - apply IH.
Qed.

Ltac no_digits Hk :=
  repeat match goal with
  | |- context [includes ?key ?word] =>
      let Hword := fresh "Hword" in
      assert (Hword : wordy word = true) by (vm_compute; reflexivity);
      rewrite (proj1 (digits_apart key word Hk Hword)); clear Hword
  end.

Lemma detectNames_digits mapped key value :
  digits_only key = true -> detectNames mapped (key, value) = mapped.
Proof.
  intros Hk. unfold detectNames. no_digits Hk.
  rewrite !andb_false_r. now destruct (JSString.truthy (trim value)).
Qed.

Lemma detectAmount_digits mapped key value :
  digits_only key = true -> detectAmount mapped (key, value) = mapped.
Proof.
  intros Hk. unfold detectAmount. no_digits Hk.
  now rewrite !andb_false_r.
Qed.

Lemma detectFullName_digits mapped key value :
  digits_only key = true -> detectFullName mapped (key, value) = mapped.
Proof.
  intros Hk. unfold detectFullName. no_digits Hk.
  now rewrite !andb_false_r.
Qed.

(** The mapper does not look at the columns whose normalized header is
    made of digits only: it maps a row as it maps the row without these
    columns, so that two lists of entries that differ only in such
    columns, or in the place of such columns, are mapped alike. *)
Theorem digit_columns_ignored :
  (forall row, mapFields row = mapFrom (normalizeRow row)) /\
  (forall entries, mapFrom entries = mapFrom (lettered entries)) /\
  (forall entries entries',
      lettered entries = lettered entries' ->
      mapFrom entries = mapFrom entries').
Proof.
  assert (H : forall entries, mapFrom entries = mapFrom (lettered entries)).
  { intros entries. unfold mapFrom.
    assert (H0 : fold_left (mapField (lettered entries)) COMMON_FIELD_MAPPINGS
                   Mapped.empty
                 = fold_left (mapField entries) COMMON_FIELD_MAPPINGS
                     Mapped.empty).
    { unfold COMMON_FIELD_MAPPINGS. cbn [fold_left].
      now rewrite !mapField_lettered by (vm_compute; reflexivity). }
    rewrite H0.
    rewrite !(detect_lettered detectNames entries detectNames_digits).
    rewrite !(detect_lettered detectAmount entries detectAmount_digits).
    rewrite !(detect_lettered detectFullName entries detectFullName_digits).
    reflexivity. }
  split; [intros row; unfold mapFields, mapFrom; reflexivity|].
  split; [exact H|].
  intros entries entries' Heq. now rewrite (H entries), (H entries'), Heq.
Qed.

End DigitColumns.

(** ** The record builder *)

Section RecordBuilder.

Import DataParser Stated.

Local Open Scope string_scope.

(** The two names the builder works with once the first test is passed. *)
Lemma or_else_empty v :
  or_empty (or_else v (Some "")) = if truthy v then or_empty v else "".
Proof. unfold or_else. destruct (truthy v); reflexivity. Qed.

(** Once the first test is passed one of the two names is not empty, so
    that the combined name is not looked at. *)
Lemma buildDonation_name_unused rt mapped next v :
  buildDonation rt (Mapped.set_name v mapped) next
  = buildDonation rt mapped next.
Proof.
  unfold buildDonation.
  cbn [Mapped.set_name Mapped.firstName Mapped.lastName Mapped.amount
       Mapped.date Mapped.month Mapped.email Mapped.phone Mapped.name].
  destruct (truthy (Mapped.firstName mapped)) eqn:Hfirst,
           (truthy (Mapped.lastName mapped)) eqn:Hlast;
    cbn [negb andb orb]; try reflexivity;
    destruct (negb (truthy (Mapped.amount mapped))); try reflexivity;
    rewrite !or_else_empty, ?Hfirst, ?Hlast.
  - destruct (Mapped.firstName mapped) as [first|]; [|discriminate].
    cbn in Hfirst. cbn [or_empty]. rewrite Hfirst. reflexivity.
  - destruct (Mapped.firstName mapped) as [first|]; [|discriminate].
    cbn in Hfirst. cbn [or_empty]. rewrite Hfirst. reflexivity.
  - destruct (Mapped.lastName mapped) as [last|]; [|discriminate].
    cbn in Hlast. cbn [or_empty]. rewrite Hlast.
    rewrite !andb_false_r. reflexivity.
Qed.

(** The combined [name] field is dead: the mapper never produces it, and
    the record builder, which would split it into a first and a last name,
    returns the same whatever it holds. *)
Theorem combined_name_unused :
  (forall row, Mapped.name (mapFields row) = None) /\
  (forall rt mapped next v,
      buildDonation rt (Mapped.set_name v mapped) next
      = buildDonation rt mapped next).
Proof.
  split; [exact mapFields_name_none | exact buildDonation_name_unused].
Qed.

(** Whether a row is kept depends on its names and on its amount only. *)
Lemma accepted_iff rt mapped next :
  accepted (fst (buildDonation rt mapped next))
  = (truthy (Mapped.firstName mapped) || truthy (Mapped.lastName mapped))
    && truthy (Mapped.amount mapped)
    && (JSString.truthy (trim (or_empty (Mapped.firstName mapped)))
        || JSString.truthy (trim (or_empty (Mapped.lastName mapped))))
    && ngtb (parseAmount (Mapped.amount mapped)) zero.
Proof.
  unfold buildDonation.
  destruct (Mapped.firstName mapped) as [[|c first]|],
           (Mapped.lastName mapped) as [[|c' last]|];
    cbn [truthy JSString.truthy is_empty negb andb orb fst accepted];
    try reflexivity;
    destruct (truthy (Mapped.amount mapped));
    cbn [truthy JSString.truthy is_empty negb andb orb fst accepted or_else
         or_empty Donation.firstName Donation.lastName Donation.amount];
    rewrite ?andb_true_r, ?andb_false_r, ?orb_false_r; reflexivity.
Qed.

(** A row is never dropped on account of its date: changing the date and
    month of a mapped row does not change whether it is kept, and a kept
    row without date and without month is dated [new Date()]. *)
Theorem date_never_rejects rt mapped next dateValue monthValue :
  let mapped' :=
    Mapped.set DateField dateValue (Mapped.set MonthField monthValue mapped) in
  accepted (fst (buildDonation rt mapped' next))
  = accepted (fst (buildDonation rt mapped next)) /\
  (truthy dateValue = false -> truthy monthValue = false ->
   forall donation,
     fst (buildDonation rt mapped' next) = Some donation ->
     Donation.date donation = Runtime.now rt /\
     Donation.year donation = getFullYear (Runtime.now rt)).
Proof.
  intros mapped'. split.
  - rewrite !accepted_iff. reflexivity.
  - intros Hdate Hmonth donation. unfold buildDonation.
    repeat match goal with
           | |- context [if ?b then _ else _] => destruct b
           | |- context [let '(_, _) := ?p in _] => destruct p
           end; cbn [fst]; try discriminate;
      intros [= <-];
      cbn [Donation.date Donation.year mapped' Mapped.set Mapped.date
           Mapped.month];
      unfold extractYear, parseDate; rewrite ?Hdate, ?Hmonth; auto.
Qed.

(** *** Trimmed names *)

Lemma trimStart_clean s : starts_clean (trimStart s).
Proof.
  induction s as [|c s IH]; cbn; [exact I|].
  destruct (is_space c) eqn:Hc; [exact IH | exact Hc].
Qed.

Lemma trimStart_of_clean s : starts_clean s -> trimStart s = s.
Proof. destruct s as [|c s]; cbn; [reflexivity|]. now intros ->. Qed.

Lemma trimEnd_clean s : starts_clean s -> starts_clean (trimEnd s).
Proof.
  destruct s as [|c s]; cbn; [auto|]. intros Hc. rewrite Hc. exact Hc.
Qed.

Lemma trimEnd_idempotent s : trimEnd (trimEnd s) = trimEnd s.
Proof.
  induction s as [|c s IH]; cbn; [reflexivity|].
  destruct (is_space c && is_empty (trimEnd s)) eqn:Hc; [reflexivity|].
  cbn. rewrite IH, Hc. reflexivity.
Qed.

Lemma trim_idempotent s : trim (trim s) = trim s.
Proof.
  unfold trim.
  rewrite (trimStart_of_clean (trimEnd (trimStart s))).
  - apply trimEnd_idempotent.
  - apply trimEnd_clean, trimStart_clean.
Qed.

Lemma buildDonation_shape rt mapped next donation :
  fst (buildDonation rt mapped next) = Some donation ->
  trim (Donation.firstName donation) = Donation.firstName donation /\
  trim (Donation.lastName donation) = Donation.lastName donation /\
  Donation.donorId donation = "" /\
  Donation.amount donation = parseAmount (Mapped.amount mapped).
Proof.
  unfold buildDonation.
  repeat match goal with
         | |- context [if ?b then _ else _] => destruct b
         | |- context [let '(_, _) := ?p in _] => destruct p
         end; cbn [fst]; try discriminate;
    intros [= <-];
    cbn [Donation.firstName Donation.lastName Donation.donorId Donation.amount];
    rewrite !trim_idempotent; auto.
Qed.

Lemma mapRows_built rt rawData next :
  Forall2 (fun row built => exists n, built = fst (buildDonation rt (mapFields row) n))
          rawData (fst (mapRows rt rawData next)).
Proof.
  revert next. induction rawData as [|row rawData IH]; intros next;
    cbn [mapRows]; [constructor|].
  destruct (buildDonation rt (mapFields row) next) as [donation next1] eqn:Hb.
  specialize (IH next1). destruct (mapRows rt rawData next1) as [others next2].
  cbn [fst] in *. constructor; [|exact IH].
  exists next. now rewrite Hb.
Qed.

(** What [processRawData] returns: at most one donation per row, in the
    order of the rows; each one has a positive amount (the parsed amount
    of its row), a first or a last name that is not empty, names without
    white space at either end, and no donor yet. *)
Theorem processRawData_donations rt rawData next :
  let donations := fst (processRawData rt rawData next) in
  (length donations <= length rawData)%nat /\
  forall donation, In donation donations ->
    ngtb (Donation.amount donation) zero = true /\
    (JSString.truthy (Donation.firstName donation) = true \/
     JSString.truthy (Donation.lastName donation) = true) /\
    trim (Donation.firstName donation) = Donation.firstName donation /\
    trim (Donation.lastName donation) = Donation.lastName donation /\
    Donation.donorId donation = "" /\
    exists row, In row rawData /\
                Donation.amount donation
                = parseAmount (Mapped.amount (mapFields row)).
Proof.
  unfold processRawData.
  pose proof (mapRows_built rt rawData next) as Hbuilt.
  destruct (mapRows rt rawData next) as [built next1]. cbn [fst] in *.
  split.
  - apply Forall2_length in Hbuilt. rewrite Hbuilt.
    clear Hbuilt. induction built as [|[d|] built IH]; [reflexivity| |].
    + cbn [List.filter]. destruct (accepted (Some d)).
      * change (S (length (omap (fun donation => donation)
                             (List.filter accepted built)))
                <= S (length built))%nat. lia.
      * cbn [length]. lia.
    + cbn [List.filter accepted length]. lia.
  - intros donation Hin.
    assert (Hsome : In (Some donation) built /\ accepted (Some donation) = true).
    { apply list_elem_of_In, list_elem_of_omap in Hin as (built1 & Hin & ->).
      apply list_elem_of_In, filter_In in Hin. exact Hin. }
    destruct Hsome as [Hsome Hacc].
    assert (Hrow : exists row n, In row rawData /\
                     fst (buildDonation rt (mapFields row) n) = Some donation).
    { clear Hin Hacc. induction Hbuilt as [|row b rows bs [n Hb] _ IH];
        [contradiction|].
      destruct Hsome as [->|Hsome].
      - exists row, n. split; [now left | now symmetry].
      - destruct (IH Hsome) as (r & m & Hr & Hm). exists r, m.
        split; [now right | exact Hm]. }
    destruct Hrow as (row & n & Hrow & Hb).
    destruct (buildDonation_shape _ _ _ _ Hb) as (Hf & Hl & Hid & Hamount).
    cbn [accepted] in Hacc.
    apply andb_true_iff in Hacc as [Hacc _].
    apply andb_true_iff in Hacc as [Hnames Hpos].
    apply orb_true_iff in Hnames.
    repeat split; auto. exists row. auto.
Qed.

End RecordBuilder.

(** ** The value normalizer *)

Section ValueNormalizer.

Import DataParser Stated.

Local Open Scope string_scope.





Lemma findIndex_range {A : Type} (p : A -> bool) l :
  (findIndex p l = -1 \/ 0 <= findIndex p l < Z.of_nat (length l))%Z.
Proof.
  induction l as [|x l IH]; cbn [findIndex length]; [now left|].
  destruct (p x); [right; lia|].
  destruct (Z.ltb_spec (findIndex p l) 0); [now left|]. right. lia.
Qed.

(** [parseMonth] reads back the names of the months, in full or
    abbreviated to three letters, whatever the case of the first letter,
    and it only ever returns a month number from 1 to 12. *)
Theorem parseMonth_months :
  (forall m,
      parseMonth (name_in capitalised m) = Some (index m + 1)%Z /\
      parseMonth (name_in monthNames m) = Some (index m + 1)%Z /\
      parseMonth (name_in abbreviations m) = Some (index m + 1)%Z) /\
  (forall value n, parseMonth value = Some n -> (1 <= n <= 12)%Z).
Proof.
  split.
  - intros m. destruct m; vm_compute; auto.
  - intros value n. unfold parseMonth. cbv zeta.
    pose proof (findIndex_range
                  (fun month => startsWith month (toLowerCase value)) monthNames)
      as Hrange.
    change (Z.of_nat (length monthNames)) with 12%Z in Hrange.
    set (i := findIndex _ monthNames) in *.
    destruct (Z.eqb_spec i (-1)); [discriminate|].
    intros [= <-]. lia.
Qed.

Lemma parseMonth_months_witness :
  parseMonth "Sept" = Some 9%Z /\ (1 <= 9 <= 12)%Z.
Proof.
  assert (H : parseMonth "Sept" = Some 9%Z) by (vm_compute; reflexivity).
  split; [exact H|]. exact (proj2 parseMonth_months "Sept" 9%Z H).
Defined.

(** A row that gives a month name and no date is dated on the first of
    that month in the current year. *)
Theorem month_only_date rt m :
  let date := parseDate rt None (Some (name_in capitalised m)) in
  date = newDate (getFullYear (Runtime.now rt)) (index m) /\
  getMonth date = m /\ sinceMonthStart date = 0%Z.
Proof.
  destruct m; vm_compute; auto.
Qed.

End ValueNormalizer.

(** ** The donor aggregator as a partition of the donations *)

Section Partition.

Import DataParser Stated.

Lemma ownedBy_snoc key processed d :
  ownedBy key (processed ++ [d])
  = ownedBy key processed ++ (if String.eqb (donorKey d) key then [d] else []).
Proof. unfold ownedBy. rewrite List.filter_app. reflexivity. Qed.

Lemma ownedBy_none key processed :
  (forall d, In d processed -> donorKey d <> key) -> ownedBy key processed = [].
Proof.
  induction processed as [|d processed IH]; intros H; [reflexivity|].
  unfold ownedBy in *. cbn [List.filter].
  destruct (String.eqb_spec (donorKey d) key) as [Heq|_].
  - exfalso. exact (H d (or_introl eq_refl) Heq).
  - apply IH. intros d' Hd'. apply H. now right.
Qed.

(** What holds of the map once the donations [processed] are consumed. *)
Record partitioned (processed : list Donation.t) (donorMap : DonorMap)
    : Prop := mkPartitioned
  { keys_distinct : List.NoDup (map fst donorMap);
    keys_owned :
      forall key donor, In (key, donor) donorMap ->
        nameKey donor = key /\
        DonorData.donations donor
        = map (fun d => Donation.with_donorId d (DonorData.id donor))
              (ownedBy key processed);
    keys_cover :
      forall d, In d processed -> In (donorKey d) (map fst donorMap);
    keys_count :
      list_sum (map (fun e => DonorData.donationCount (snd e)) donorMap)
      = length processed }.

Lemma groupStep_partitioned rt processed donorMap next donation :
  partitioned processed donorMap ->
  partitioned (processed ++ [donation])
              (fst (groupStep rt (donorMap, next) donation)).
Proof.
  intros [Hdistinct Howned Hcover Hcount]. unfold groupStep.
  pose proof (assoc_set_sum String.eqb String.eqb_spec
                DonorData.donationCount donorMap
                (donorKey donation)) as Hsum.
  destruct (Assoc.get String.eqb donorMap (donorKey donation))
    as [donor|] eqn:Hget; cbn [fst].
  - pose proof (assoc_get_present String.eqb String.eqb_spec _ _ _ Hget) as Hin.
    destruct (Howned _ _ Hin) as [Hkey Hdonations].
    split.
    + now apply (assoc_set_distinct String.eqb String.eqb_spec).
    + intros key donor' Hin'.
      apply (assoc_set_entries String.eqb String.eqb_spec _ _ _ _ _ Hdistinct)
        in Hin'
        as [[-> ->]|[Hne Hold]].
      * split; [exact Hkey|].
        cbn [addDonation DonorData.donations DonorData.id].
        rewrite ownedBy_snoc, String.eqb_refl, map_app, Hdonations.
        reflexivity.
      * destruct (Howned _ _ Hold) as [Hk Hd]. split; [exact Hk|].
        rewrite ownedBy_snoc.
        destruct (String.eqb_spec (donorKey donation) key); [congruence|].
        now rewrite app_nil_r.
    + intros d Hd. apply (assoc_set_keys String.eqb String.eqb_spec).
      apply in_app_or in Hd as [Hd|[<-|[]]]; [right; auto | now left].
    + specialize (Hsum (addDonation donor donation)).
      cbn [addDonation DonorData.donationCount] in Hsum.
      rewrite length_app. cbn [length]. lia.
  - apply (assoc_get_missing String.eqb String.eqb_spec) in Hget.
    split.
    + now apply (assoc_set_distinct String.eqb String.eqb_spec).
    + intros key donor' Hin'.
      apply (assoc_set_entries String.eqb String.eqb_spec _ _ _ _ _ Hdistinct)
        in Hin'
        as [[-> ->]|[Hne Hold]].
      * split; [reflexivity|].
        cbn [addDonation newDonor DonorData.donations DonorData.id].
        rewrite ownedBy_snoc, String.eqb_refl, ownedBy_none; [reflexivity|].
        intros d Hd Heq. apply Hget. rewrite <- Heq. now apply Hcover.
      * destruct (Howned _ _ Hold) as [Hk Hd]. split; [exact Hk|].
        rewrite ownedBy_snoc.
        destruct (String.eqb_spec (donorKey donation) key); [congruence|].
        now rewrite app_nil_r.
    + intros d Hd. apply (assoc_set_keys String.eqb String.eqb_spec).
      apply in_app_or in Hd as [Hd|[<-|[]]]; [right; auto | now left].
    + specialize (Hsum (addDonation (newDonor (Runtime.generateId rt next)
                                       donation) donation)).
      cbn [addDonation newDonor DonorData.donationCount] in Hsum.
      rewrite length_app. cbn [length]. lia.
Qed.

Lemma grouping_partitioned rt donations processed state :
  partitioned processed (fst state) ->
  partitioned (processed ++ donations)
              (fst (fold_left (groupStep rt) donations state)).
Proof.
  revert processed state.
  induction donations as [|d donations IH]; intros processed [m n] H;
    cbn [fold_left].
  - now rewrite app_nil_r.
  - replace (processed ++ d :: donations) with ((processed ++ [d]) ++ donations)
      by (rewrite <- app_assoc; reflexivity).
    apply IH. now apply groupStep_partitioned.
Qed.

Lemma grouping_partition rt donations next :
  let donors := fst (groupByDonor rt donations next) in
  List.NoDup (map nameKey donors) /\
  (forall donor, In donor donors ->
     DonorData.donations donor
     = map (fun d => Donation.with_donorId d (DonorData.id donor))
           (ownedBy (nameKey donor) donations)) /\
  (forall d, In d donations ->
     exists donor, In donor donors /\ nameKey donor = donorKey d) /\
  countDonations donors = length donations.
Proof.
  unfold groupByDonor.
  assert (H0 : partitioned [] (fst (([] : DonorMap), next))).
  { split; cbn; try constructor; try tauto. }
  pose proof (grouping_partitioned rt donations [] ([], next) H0) as H.
  cbn [app] in H.
  destruct (fold_left (groupStep rt) donations ([], next)) as [donorMap next1].
  cbn [fst] in *. destruct H as [Hdistinct Howned Hcover Hcount].
  assert (Hkeys : map nameKey (map (fun entry => derive (snd entry)) donorMap)
                  = map fst donorMap).
  { rewrite map_map. apply map_ext_in. intros [key donor] Hin.
    exact (proj1 (Howned _ _ Hin)). }
  repeat split.
  - now rewrite Hkeys.
  - intros donor Hin. apply in_map_iff in Hin as ([key raw] & <- & Hin).
    destruct (Howned _ _ Hin) as [Hk Hd].
    cbn [snd derive DonorData.donations DonorData.id].
    change (nameKey (derive raw)) with (nameKey raw). now rewrite Hk.
  - intros d Hd. apply Hcover in Hd. apply in_map_iff in Hd as ([key raw] & Hk & Hin).
    cbn [fst] in Hk. subst key. exists (derive raw). split.
    + apply in_map_iff. now exists (donorKey d, raw).
    + exact (proj1 (Howned _ _ Hin)).
  - unfold countDonations. rewrite map_map. exact Hcount.
Qed.

(** [groupByDonor] partitions the donations by their key: the donors have
    pairwise different keys; each donor owns exactly the donations of its
    key, in the order of the input, each stamped with the identifier of
    the donor; every donation is owned by some donor; and the donation
    counts of the donors add up to the number of donations. *)
Theorem groupByDonor_partition rt donations next :
  let donors := fst (groupByDonor rt donations next) in
  List.NoDup (map nameKey donors) /\
  (forall donor, In donor donors ->
     DonorData.donations donor
     = map (fun d => Donation.with_donorId d (DonorData.id donor))
           (ownedBy (nameKey donor) donations)) /\
  (forall d, In d donations ->
     exists donor, In donor donors /\ nameKey donor = donorKey d) /\
  countDonations donors = length donations.
Proof. exact (grouping_partition rt donations next). Qed.

End Partition.

(** ** The trend analyzer *)

Section Trends.

Import DonorAnalytics Stated.




Lemma gifts_app donors1 donors2 :
  gifts (donors1 ++ donors2) = gifts donors1 ++ gifts donors2.
Proof. unfold gifts. apply flat_map_app. Qed.












End Trends.

(** ** The forecaster *)

Section Forecast.

Import DonorAnalytics Stated.

Lemma nltb_irrefl a : nltb a a = false.
Proof. destruct a; cbn; auto using Z.ltb_irrefl. Qed.

Lemma nltb_asym a b : nltb a b = true -> nltb b a = false.
Proof.
  destruct a as [p| | |], b as [q| | |]; cbn; try discriminate; auto.
  intros H%Z.ltb_lt. apply Z.ltb_ge. lia.
Qed.

(** [Math.max(0, x)] is never below 0. *)
Lemma math_max_zero x : nltb (math_max zero x) zero = false.
Proof.
  unfold math_max, zero, of_Z.
  destruct x as [q| | |]; try reflexivity.
  destruct (nltb (Fin (inject_Z 0)) (Fin q)) eqn:H.
  - now apply nltb_asym.
  - apply nltb_irrefl.
Qed.

(** [Math.max(0, Math.min(1, x))] is never below 0 nor above 1. *)
Lemma clamp_unit x :
  let c := math_max zero (math_min one x) in
  nltb c zero = false /\ ngtb c one = false.
Proof.
  cbv zeta. split; [apply math_max_zero|].
  unfold ngtb, math_max, math_min, zero, one, of_Z.
  destruct x as [q| | |]; try reflexivity.
  destruct (nltb (Fin q) (Fin (inject_Z 1))) eqn:Hq.
  - destruct (nltb (Fin (inject_Z 0)) (Fin q)) eqn:H0.
    + now apply nltb_asym.
    + reflexivity.
  - reflexivity.
Qed.

(** Whatever the history, the two predicted amounts are never negative
    and the confidence is never below 0 nor above 1. *)
Theorem forecast_ranges monthlyTrends :
  let forecast := generateForecast monthlyTrends in
  let nextMonth := ForecastData.nextMonth forecast in
  let nextQuarter := ForecastData.nextQuarter forecast in
  nltb (Prediction.predictedAmount nextMonth) zero = false /\
  nltb (Prediction.predictedAmount nextQuarter) zero = false /\
  nltb (Prediction.confidence nextMonth) zero = false /\
  ngtb (Prediction.confidence nextMonth) one = false /\
  Prediction.confidence nextQuarter = Prediction.confidence nextMonth.
Proof.
  cbv zeta. unfold generateForecast.
  destruct (length monthlyTrends <? 3)%nat.
  - cbn. auto.
  - cbn [ForecastData.nextMonth ForecastData.nextQuarter
         Prediction.predictedAmount Prediction.confidence].
    repeat split; try apply math_max_zero; apply clamp_unit.
Qed.

End Forecast.

(** ** The forecast of a linear history *)

Section LinearHistory.

Import DonorAnalytics Stated.

Local Open Scope Q_scope.















End LinearHistory.

(** ** The retention calculator, month by month *)

Section RetentionMonths.

Import DonorAnalytics Stated.

Lemma same_time_refl d : same_time d d = true.
Proof. unfold same_time. now rewrite !Z.eqb_refl. Qed.

Lemma latest_in d ds : In (latest d ds) (d :: ds).
Proof.
  unfold latest. revert d. induction ds as [|x ds IH]; intros d;
    cbn [fold_left]; [now left|].
  destruct (before d x).
  - right. apply IH.
  - destruct (IH d) as [<-|Hin]; [now left | right; now right].
Qed.

Lemma allDonationDates_gifts donors :
  allDonationDates donors
  = map (fun gift => Donation.date (snd gift)) (gifts donors).
Proof.
  unfold allDonationDates, gifts.
  induction donors as [|donor donors IH]; [reflexivity|].
  cbn [flat_map]. rewrite map_app, IH, map_map. reflexivity.
Qed.

(** The set built by the two nested loops is the set of the givers. *)
Lemma monthDonors_givers target donors :
  monthDonors target donors = giversIn target donors.
Proof.
  unfold monthDonors, giversIn.
  assert (H : forall acc : gset string,
             fold_left
               (fun acc donor =>
                  fold_left
                    (fun acc donation =>
                       let donationDate :=
                         newDate (getFullYear (Donation.date donation))
                                 (index (getMonth (Donation.date donation))) in
                       if same_time donationDate target
                       then {[ DonorData.id donor ]} ∪ acc else acc)
                    (DonorData.donations donor) acc)
               donors acc
             = list_to_set
                 (map fst (List.filter (givenIn target) (gifts donors))) ∪ acc).
  { induction donors as [|donor donors IH]; intros acc; cbn [fold_left].
    - cbn. set_solver.
    - rewrite IH.
      change (gifts (donor :: donors))
        with (map (fun d => (DonorData.id donor, d)) (DonorData.donations donor)
              ++ gifts donors).
      rewrite List.filter_app, map_app, list_to_set_app_L.
      assert (Hinner : forall donations (acc : gset string),
                 fold_left
                   (fun acc donation =>
                      let donationDate :=
                        newDate (getFullYear (Donation.date donation))
                                (index (getMonth (Donation.date donation))) in
                      if same_time donationDate target
                      then {[ DonorData.id donor ]} ∪ acc else acc)
                   donations acc
                 = list_to_set
                     (map fst
                        (List.filter (givenIn target)
                           (map (fun d => (DonorData.id donor, d)) donations)))
                   ∪ acc).
      { clear. induction donations as [|d donations IHd]; intros acc;
          cbn [fold_left map List.filter].
        - cbn. set_solver.
        - rewrite IHd. unfold givenIn at 2, monthStart. cbn [snd].
          destruct (same_time _ target); cbn [map fst list_to_set]; set_solver. }
      rewrite Hinner. set_solver. }
  rewrite H. set_solver.
Qed.

Lemma filter_members (C L : gset string) :
  length (List.filter (fun id => bool_decide (id ∈ L)) (elements C))
  = size (C ∩ L).
Proof.
  set (l := List.filter (fun id => bool_decide (id ∈ L)) (elements C)).
  assert (Hnodup : NoDup l)
    by (apply NoDup_ListNoDup, List.NoDup_filter, NoDup_ListNoDup,
          NoDup_elements).
  assert (Hset : (list_to_set l : gset string) = C ∩ L).
  { apply set_eq. intros x. rewrite elem_of_list_to_set, elem_of_intersection.
    unfold l. rewrite list_elem_of_In, filter_In, <- list_elem_of_In.
    rewrite elem_of_elements, bool_decide_eq_true. reflexivity. }
  rewrite <- Hset. symmetry. now apply size_list_to_set.
Qed.

Lemma size_split (C L : gset string) :
  size C = (size (C ∩ L) + size (C ∖ L))%nat.
Proof.
  rewrite <- size_union by set_solver. f_equal.
  apply set_eq. intros x. destruct (decide (x ∈ L)); set_solver.
Qed.

Lemma ratio_unit (a b : nat) :
  (a <= b)%nat -> (0 < b)%nat ->
  exists q, ndiv (of_nat a) (of_nat b) = Fin q /\ (0 <= q <= 1)%Q.
Proof.
  intros Hab Hb. unfold ndiv, of_nat, of_Z.
  assert (Hpos : (0 < inject_Z (Z.of_nat b))%Q).
  { replace 0%Q with (inject_Z 0) by reflexivity. rewrite <- Zlt_Qlt. lia. }
  assert (Hzero : Qis_zero (inject_Z (Z.of_nat b)) = false).
  { unfold Qis_zero. destruct (Qeq_bool _ 0) eqn:H; [|reflexivity].
    apply Qeq_bool_eq in H. rewrite H in Hpos. now apply Qlt_irrefl in Hpos. }
  rewrite Hzero. eexists. split; [reflexivity|]. split.
  - apply Qle_shift_div_l; [exact Hpos|]. rewrite Qmult_0_l.
    replace 0%Q with (inject_Z 0) by reflexivity. rewrite <- Zle_Qle. lia.
  - apply Qle_shift_div_r; [exact Hpos|]. rewrite Qmult_1_l.
    rewrite <- Zle_Qle. lia.
Qed.

(** Month by month: when there is a donation, the month of the latest one
    always has a giver, so that the calculator falls back on the
    frequencies exactly when nobody gave in the month before; otherwise
    the returning donors are the givers of both months, the new donors the
    givers of the current month only, and the retention rate is the
    number of returning donors over the number of givers of the month
    before. *)
Theorem retention_by_month donors currentMonth lastMonth :
  referenceMonths donors = Some (currentMonth, lastMonth) ->
  let current := giversIn currentMonth donors in
  let previous := giversIn lastMonth donors in
  let result := calculateRetention donors in
  current <> ∅ /\
  fallbackMode donors = (size previous =? 0)%nat /\
  (fallbackMode donors = false ->
   RetentionData.returningDonors result = size (current ∩ previous) /\
   RetentionData.newDonors result = size (current ∖ previous) /\
   RetentionData.retentionRate result
   = ndiv (of_nat (size (current ∩ previous))) (of_nat (size previous))).
Proof.
  intros Href. cbv zeta.
  assert (Hcurrent : giversIn currentMonth donors <> ∅).
  { unfold referenceMonths in Href.
    destruct (allDonationDates donors) as [|d ds] eqn:Hdates; [discriminate|].
    injection Href as <- _.
    pose proof (latest_in d ds) as Hin. rewrite <- Hdates in Hin.
    rewrite allDonationDates_gifts in Hin.
    apply in_map_iff in Hin as (gift & Hdate & Hgift).
    assert (Hgiven : In gift (List.filter
                                (givenIn (newDate (getFullYear (latest d ds))
                                                  (index (getMonth (latest d ds)))))
                                (gifts donors))).
    { apply filter_In. split; [exact Hgift|].
      unfold givenIn, monthStart. rewrite Hdate. apply same_time_refl. }
    unfold giversIn. intros Hempty.
    assert (Hid : fst gift ∈ (∅ : gset string)).
    { rewrite <- Hempty. apply elem_of_list_to_set, list_elem_of_In.
      now apply in_map. }
    set_solver. }
  assert (Hsize : (size (giversIn currentMonth donors) =? 0)%nat = false).
  { apply Nat.eqb_neq. intros H. apply size_empty_inv in H.
    apply Hcurrent. now apply leibniz_equiv. }
  unfold fallbackMode, calculateRetention. rewrite Href.
  rewrite !monthDonors_givers. unfold limitedMonthlyData.
  rewrite Hsize, orb_false_r.
  split; [exact Hcurrent|]. split; [reflexivity|].
  intros Hnormal. rewrite Hnormal.
  cbn [RetentionData.returningDonors RetentionData.newDonors
       RetentionData.retentionRate].
  rewrite filter_members.
  apply Nat.eqb_neq in Hnormal.
  destruct (Nat.ltb_spec 0 (size (giversIn lastMonth donors))); [|lia].
  repeat split.
  rewrite (size_split (giversIn currentMonth donors)
                      (giversIn lastMonth donors)). lia.
Qed.

Lemma frequency_total donors :
  (length (List.filter (has_frequency [frequent; regular]) donors)
   + length (List.filter (has_frequency [occasional]) donors))%nat
  = length (List.filter (has_frequency [frequent; regular; occasional]) donors).
Proof.
  induction donors as [|donor donors IH]; [reflexivity|].
  cbn [List.filter].
  destruct (has_frequency [frequent; regular] donor) eqn:E1,
           (has_frequency [occasional] donor) eqn:E2,
           (has_frequency [frequent; regular; occasional] donor) eqn:E3;
    cbn [length]; try lia; exfalso; revert E1 E2 E3;
    unfold has_frequency; cbn;
    destruct (DonorData.donationFrequency donor); discriminate.
Qed.

Lemma retention_by_month_witness :
  referenceMonths Samples.twoMonths
  = Some (mkDate 2024 Sep 0, mkDate 2024 Aug 0) /\
  fallbackMode Samples.twoMonths = false /\
  RetentionData.returningDonors (calculateRetention Samples.twoMonths) = 1%nat /\
  RetentionData.newDonors (calculateRetention Samples.twoMonths) = 1%nat /\
  RetentionData.retentionRate (calculateRetention Samples.twoMonths)
  = ndiv (of_nat 1) (of_nat 1).
Proof.
  assert (Hmonths : referenceMonths Samples.twoMonths
                    = Some (mkDate 2024 Sep 0, mkDate 2024 Aug 0))
    by (vm_compute; reflexivity).
  split; [exact Hmonths|].
  destruct (retention_by_month Samples.twoMonths _ _ Hmonths)
    as (_ & Hmode & Hnormal).
  assert (Hfalse : fallbackMode Samples.twoMonths = false)
    by (rewrite Hmode; vm_compute; reflexivity).
  split; [exact Hfalse|].
  destruct (Hnormal Hfalse) as (Hreturning & Hnew & Hrate).
  split; [rewrite Hreturning; vm_compute; reflexivity|].
  split; [rewrite Hnew; vm_compute; reflexivity|].
  rewrite Hrate.
  replace (size (giversIn (mkDate 2024 Sep 0) Samples.twoMonths
                 ∩ giversIn (mkDate 2024 Aug 0) Samples.twoMonths))
    with 1%nat by (vm_compute; reflexivity).
  replace (size (giversIn (mkDate 2024 Aug 0) Samples.twoMonths))
    with 1%nat by (vm_compute; reflexivity).
  reflexivity.
Defined.

(** The retention rate is always a number between 0 and 1. *)
Theorem retention_rate_unit donors :
  exists q,
    RetentionData.retentionRate (calculateRetention donors) = Fin q /\
    (0 <= q <= 1)%Q.
Proof.
  unfold calculateRetention.
  destruct (referenceMonths donors) as [[currentMonth lastMonth]|];
    [|exists 0%Q; split; [reflexivity | split; discriminate]].
  cbv zeta. rewrite filter_members.
  set (current := monthDonors currentMonth donors).
  set (previous := monthDonors lastMonth donors).
  destruct (limitedMonthlyData previous current).
  - cbn [RetentionData.retentionRate].
    destruct (Nat.ltb_spec 0 (length donors));
      [|exists 0%Q; split; [reflexivity | split; discriminate]].
    apply ratio_unit; [|assumption].
    rewrite (frequency_total donors). apply filter_length_le.
  - cbn [RetentionData.retentionRate].
    destruct (Nat.ltb_spec 0 (size previous));
      [|exists 0%Q; split; [reflexivity | split; discriminate]].
    apply ratio_unit; [|assumption].
    apply subseteq_size. set_solver.
Qed.

End RetentionMonths.

(** ** The analysis of grouped donations *)

Section Analysis.

Import DataParser DonorAnalytics Stated.

(** *** Sums of numbers up to the representation of fractions *)














(** *** Grouping, then analysis *)


(** *** The top donors *)





End Analysis.

(** ** Months between two dates, and periods compared *)

Section Periods.

Import DateUtils DonorAnalytics Stated.

Lemma of_index_index m : of_index (index m) = m.
Proof. destruct m; reflexivity. Qed.

Lemma index_bounds m : 0 <= index m <= 11.
Proof. destruct m; cbn; lia. Qed.

Lemma index_inj m m' : index m = index m' -> m = m'.
Proof. intros H. rewrite <- (of_index_index m), H. apply of_index_index. Qed.

(** The month of a date counted from year 0, with the years 0 to 99 read
    as 1900 to 1999 as [new Date(year, month)] reads them. *)
Lemma getMonthsBetween_serial a b :
  getMonthsBetween a b = serialMonth b - serialMonth a.
Proof.
  unfold getMonthsBetween, serialMonth, newDate.
  cbn [getFullYear getMonth]. rewrite !of_index_index.
  pose proof (index_bounds (getMonth a)). pose proof (index_bounds (getMonth b)).
  rewrite !(Z.div_small (index _) 12) by lia.
  destruct ((0 <=? getFullYear a) && (getFullYear a <=? 99)),
           ((0 <=? getFullYear b) && (getFullYear b <=? 99)); lia.
Qed.

(** [getMonthsBetween] adds up along a chain of dates and does not look
    at the time within the month.  For two dates outside the years 0 to
    99 it is twelve times the difference of the years plus the difference
    of the months, it is 0 exactly when the two dates are in the same
    month of the same year, and it is positive exactly when the first
    month comes before the second.  A year from 0 to 99 counts as the year
    1900 later. *)
Theorem getMonthsBetween_calendar :
  (forall a b c,
      getMonthsBetween a c = getMonthsBetween a b + getMonthsBetween b c) /\
  (forall a b t t',
      getMonthsBetween (mkDate (getFullYear a) (getMonth a) t)
                       (mkDate (getFullYear b) (getMonth b) t')
      = getMonthsBetween a b) /\
  (forall a b,
      fourDigitYear a -> fourDigitYear b ->
      getMonthsBetween a b
      = (getFullYear b - getFullYear a) * 12
        + (index (getMonth b) - index (getMonth a)) /\
      (getMonthsBetween a b = 0 <->
       getFullYear a = getFullYear b /\ getMonth a = getMonth b) /\
      (0 < getMonthsBetween a b <->
       keyBefore (monthKey a) (monthKey b))) /\
  (forall year m t t',
      0 <= year <= 99 ->
      getMonthsBetween (mkDate year m t) (mkDate (1900 + year) m t') = 0).
Proof.
  split; [|split; [|split]].
  - intros a b c. rewrite !getMonthsBetween_serial. lia.
  - intros a b t t'. rewrite !getMonthsBetween_serial. reflexivity.
  - intros a b Ha Hb. rewrite getMonthsBetween_serial.
    unfold serialMonth, fourDigitYear in *.
    pose proof (index_bounds (getMonth a)). pose proof (index_bounds (getMonth b)).
    assert (Hya : (0 <=? getFullYear a) && (getFullYear a <=? 99) = false)
      by (apply andb_false_iff; lia).
    assert (Hyb : (0 <=? getFullYear b) && (getFullYear b <=? 99) = false)
      by (apply andb_false_iff; lia).
    rewrite Hya, Hyb. split; [lia|]. split.
    + split.
      * intros H1. assert (getFullYear a = getFullYear b) by lia.
        split; [assumption|]. apply index_inj. lia.
      * intros [-> ->]. lia.
    + unfold keyBefore, monthKey. cbn [fst snd]. lia.
  - intros year m t t' Hyear. rewrite getMonthsBetween_serial.
    unfold serialMonth. cbn [getFullYear getMonth].
    assert (H1 : (0 <=? year) && (year <=? 99) = true)
      by (apply andb_true_iff; lia).
    assert (H2 : (0 <=? 1900 + year) && (1900 + year <=? 99) = false)
      by (apply andb_false_iff; lia).
    rewrite H1, H2. lia.
Qed.

Lemma getMonthsBetween_calendar_witness :
  getMonthsBetween (mkDate 2023 Nov 5000) (mkDate 2025 Feb 0) = 15 /\
  getMonthsBetween (mkDate 24 Nov 0) (mkDate 2024 Nov 0) = 1200.
Proof.
  destruct getMonthsBetween_calendar as (_ & _ & Hfour & _).
  split.
  - rewrite (proj1 (Hfour (mkDate 2023 Nov 5000) (mkDate 2025 Feb 0)
                      ltac:(unfold fourDigitYear; cbn; lia)
                      ltac:(unfold fourDigitYear; cbn; lia))).
    reflexivity.
  - reflexivity.
Defined.


End Periods.

(** ** The trend of an economic indicator *)

Section EconomicTrend.

Import EconomicDataService Stated.

Local Open Scope Q_scope.






Lemma threeBefore_length {A : Type} (l : list A) :
  length (threeBefore l) = Nat.min 3 (length l - 3).
Proof. unfold threeBefore. rewrite length_take, length_drop. lia. Qed.




(** Fewer than four points are never enough: the first test lets two and
    three points through, but then there is no older window. *)
Theorem trend_needs_four_points data :
  (length data <= 3)%nat -> calculateTrend data = stable.
Proof.
  intros Hlen. unfold calculateTrend.
  destruct (length data <? 2)%nat; [reflexivity|].
  assert (Holder : length (threeBefore data) = 0%nat)
    by (rewrite threeBefore_length; lia).
  rewrite Holder. cbn [Nat.eqb]. rewrite orb_true_r. reflexivity.
Qed.

Lemma trend_needs_four_points_witness :
  calculateTrend (take 3 Samples.risingSeries) = stable /\
  calculateTrend (drop 2 Samples.risingSeries) = up.
Proof.
  split; [|vm_compute; reflexivity].
  apply trend_needs_four_points. cbn. lia.
Defined.











End EconomicTrend.
